(** * Webhook receivers: sale settlement and credit grants

    A shallow embedding of the two route handlers

      - [app/api/stripe-webhook/route.ts]          (sale receiver)
      - [app/api/webhooks/stripe-credits/route.ts] (credits receiver)

    The handlers are sequences of awaited calls on two collaborators:
    the payment provider's SDK and a relational store reached through
    a query builder.  Every awaited call becomes one step of a state
    and exception monad over a [World] holding the store's tables.
    Numbers are [Z]: all amounts are integral cents or credit counts,
    on which the arithmetic of the source ([+], [-], [Math.max],
    comparisons) is exact as long as the values stay within the safe
    integers of a double.  Console output is not modelled. *)

From Stdlib Require Import ZArith List String Ascii Bool Lia.
Import ListNotations.

Local Open Scope string_scope.
Local Open Scope list_scope.
Local Open Scope Z_scope.

(** ** Values read off untyped payloads *)

(** [!s] on a [string | undefined] is false exactly on a non-empty
    string. *)
Definition truthy (s : option string) : bool :=
  match s with
  | Some s => negb (s =? "")%string
  | None => false
  end.

(** [a || b] on [string | undefined]. *)
Definition or_else (a b : option string) : option string :=
  if truthy a then a else b.

(** [a ?? d]. *)
Definition nullish {A : Type} (a : option A) (d : A) : A :=
  match a with
  | Some x => x
  | None => d
  end.

(** [v === s] for [v : string | undefined]. *)
Definition is_string (v : option string) (s : string) : bool :=
  match v with
  | Some x => (x =? s)%string
  | None => false
  end.

(** A metadata bag: string keys, string values. *)
Definition Metadata := list (string * string).

Fixpoint md_get (k : string) (md : Metadata) : option string :=
  match md with
  | [] => None
  | (k', v) :: rest => if (k' =? k)%string then Some v else md_get k rest
  end.

(** *** [parseInt(s, 10)]

    Leading white space is skipped, one sign is accepted, then the
    longest run of decimal digits is read; [None] stands for [NaN]. *)

Definition is_ws (c : ascii) : bool :=
  let n := nat_of_ascii c in
  ((9 <=? n) && (n <=? 13))%nat || (n =? 32)%nat.

Definition is_digit (c : ascii) : bool :=
  let n := nat_of_ascii c in
  ((48 <=? n) && (n <=? 57))%nat.

Definition digit_val (c : ascii) : Z :=
  Z.of_nat (nat_of_ascii c) - 48.

Fixpoint skip_ws (s : string) : string :=
  match s with
  | String c r => if is_ws c then skip_ws r else s
  | EmptyString => s
  end.

Fixpoint read_digits (s : string) (acc : option Z) : option Z :=
  match s with
  | String c r =>
      if is_digit c
      then read_digits r (Some (10 * nullish acc 0 + digit_val c))
      else acc
  | EmptyString => acc
  end.

Definition parseInt (s : string) : option Z :=
  let s := skip_ws s in
  let '(neg, s) :=
    match s with
    | String "-"%char r => (true, r)
    | String "+"%char r => (false, r)
    | _ => (false, s)
    end in
  match read_digits s None with
  | Some n => Some (if neg then - n else n)
  | None => None
  end.

(** ** Provider objects

    [event.data.object] is an untyped JSON object that the handlers
    cast without a run-time check, so one record carries every field
    any handler reads; [PaymentIntent], [Charge], [Session] and
    [Account] are views of it. *)

Module Stripe.

(** [string | T | null] for a reference that may be expanded. *)
Inductive Expandable : Type :=
| Absent
| Id (s : string)
| Expanded (id : string).

Record Object : Type := {
  id : string;
  status : string;
  metadata : option Metadata;
  amount : Z;
  amount_received : option Z;
  application_fee_amount : option Z;
  payment_intent : Expandable;
  amount_total : option Z;
  charges_enabled : bool;
  payouts_enabled : bool;
  (* [requirements?.currently_due]: either level may be missing *)
  requirements : option (option (list string))
}.

Definition PaymentIntent := Object.
Definition Charge := Object.
Definition Session := Object.
Definition Account := Object.

Record Event : Type := {
  type : string;
  data_object : Object
}.

End Stripe.

(** The provider SDK.  [None] stands for a thrown error. *)
Class StripeServer : Type := {
  webhooks_constructEvent :
    string (* raw body *) -> string (* signature *) -> string (* secret *) ->
    option Stripe.Event;
  paymentIntents_retrieve : string -> option Stripe.PaymentIntent
}.

(** ** Process environment *)

Record ProcessEnv : Type := {
  STRIPE_WEBHOOK_SECRET : option string;
  STRIPE_CONNECT_WEBHOOK_SECRET : option string;
  STRIPE_CREDITS_WEBHOOK_SECRET : option string;
  STRIPE_CREDITS_CONNECT_SECRET : option string;
  SUPABASE_URL : option string;
  NEXT_PUBLIC_SUPABASE_URL : option string;
  SUPABASE_SERVICE_KEY : option string
}.

(** ** The relational store *)

(** The error object of a store reply. *)
Record PgError : Type := {
  code : string;
  message : string
}.

Definition unique_violation : PgError :=
  {| code := "23505"; message := "duplicate key value violates unique constraint" |}.

Definition no_single_row : PgError :=
  {| code := "PGRST116"; message := "JSON object requested, multiple (or no) rows returned" |}.

Module Profile.
Record t : Type := {
  id : string;
  email : option string;
  stripe_account_id : option string;
  stripe_verified : option bool;
  is_seller : option bool;
  credits : option Z
}.
End Profile.

Module Listing.
Record t : Type := {
  id : string;
  source_type : string;
  source_id : string;
  buyer_id : option string;
  status : string;
  is_active : bool;
  updated_at : option Z
}.
End Listing.

Module Transaction.
Record t : Type := {
  id : string;
  stripe_payment_id : option string;
  listing_id : string;
  buyer_id : string;
  status : string;
  updated_at : option Z
}.
End Transaction.

Module Asset.
Record t : Type := {
  id : string;
  owner_id : string;
  source_type : string;
  source_id : string
}.
End Asset.

Module Payout.
Record t : Type := {
  listing_id : string;
  stripe_account_id : string;
  amount_cents : Z;
  scheduled_at : Z;
  status : string
}.
End Payout.

Module Ledger.
Record t : Type := {
  user_id : string;
  payment_intent : string;
  amount_cents : Z;
  credits : Z;
  reason : string
}.
End Ledger.

Inductive StoreOp : Type := Select | Insert | Update | Upsert.

(** Every call that leaves the process, in the order it is made. *)
Inductive Call : Type :=
| ConstructEvent (secret : string)
| RetrievePaymentIntent (id : string)
| From (table : string) (op : StoreOp).

(** The state a request runs against.  [faults] schedules failures of
    the store that do not depend on its contents (transport, policy):
    each store call consumes the head, and an exhausted schedule means
    no further fault.  [clock] is the reading of [Date.now()]. *)
Record World : Type := {
  mkt_profiles : list Profile.t;
  mkt_listings : list Listing.t;
  mkt_transactions : list Transaction.t;
  user_assets : list Asset.t;
  mkt_payouts : list Payout.t;
  credits_ledger : list Ledger.t;
  faults : list (option PgError);
  calls : list Call;
  clock : Z
}.

Definition with_profiles (v : list Profile.t) (w : World) : World :=
  {| mkt_profiles := v; mkt_listings := mkt_listings w;
     mkt_transactions := mkt_transactions w; user_assets := user_assets w;
     mkt_payouts := mkt_payouts w; credits_ledger := credits_ledger w;
     faults := faults w; calls := calls w; clock := clock w |}.

Definition with_listings (v : list Listing.t) (w : World) : World :=
  {| mkt_profiles := mkt_profiles w; mkt_listings := v;
     mkt_transactions := mkt_transactions w; user_assets := user_assets w;
     mkt_payouts := mkt_payouts w; credits_ledger := credits_ledger w;
     faults := faults w; calls := calls w; clock := clock w |}.

Definition with_transactions (v : list Transaction.t) (w : World) : World :=
  {| mkt_profiles := mkt_profiles w; mkt_listings := mkt_listings w;
     mkt_transactions := v; user_assets := user_assets w;
     mkt_payouts := mkt_payouts w; credits_ledger := credits_ledger w;
     faults := faults w; calls := calls w; clock := clock w |}.

Definition with_assets (v : list Asset.t) (w : World) : World :=
  {| mkt_profiles := mkt_profiles w; mkt_listings := mkt_listings w;
     mkt_transactions := mkt_transactions w; user_assets := v;
     mkt_payouts := mkt_payouts w; credits_ledger := credits_ledger w;
     faults := faults w; calls := calls w; clock := clock w |}.

Definition with_payouts (v : list Payout.t) (w : World) : World :=
  {| mkt_profiles := mkt_profiles w; mkt_listings := mkt_listings w;
     mkt_transactions := mkt_transactions w; user_assets := user_assets w;
     mkt_payouts := v; credits_ledger := credits_ledger w;
     faults := faults w; calls := calls w; clock := clock w |}.

Definition with_ledger (v : list Ledger.t) (w : World) : World :=
  {| mkt_profiles := mkt_profiles w; mkt_listings := mkt_listings w;
     mkt_transactions := mkt_transactions w; user_assets := user_assets w;
     mkt_payouts := mkt_payouts w; credits_ledger := v;
     faults := faults w; calls := calls w; clock := clock w |}.

Definition with_faults (v : list (option PgError)) (w : World) : World :=
  {| mkt_profiles := mkt_profiles w; mkt_listings := mkt_listings w;
     mkt_transactions := mkt_transactions w; user_assets := user_assets w;
     mkt_payouts := mkt_payouts w; credits_ledger := credits_ledger w;
     faults := v; calls := calls w; clock := clock w |}.

Definition with_calls (v : list Call) (w : World) : World :=
  {| mkt_profiles := mkt_profiles w; mkt_listings := mkt_listings w;
     mkt_transactions := mkt_transactions w; user_assets := user_assets w;
     mkt_payouts := mkt_payouts w; credits_ledger := credits_ledger w;
     faults := faults w; calls := v; clock := clock w |}.

Definition with_clock (v : Z) (w : World) : World :=
  {| mkt_profiles := mkt_profiles w; mkt_listings := mkt_listings w;
     mkt_transactions := mkt_transactions w; user_assets := user_assets w;
     mkt_payouts := mkt_payouts w; credits_ledger := credits_ledger w;
     faults := faults w; calls := calls w; clock := v |}.

(** A table of the store: where its rows live in the world, its name,
    and which pairs of rows a unique index forbids. *)
Record Table (R : Type) : Type := {
  name : string;
  rows : World -> list R;
  with_rows : list R -> World -> World;
  clashes : R -> R -> bool
}.
Arguments name {R}.
Arguments rows {R}.
Arguments with_rows {R}.
Arguments clashes {R}.

Definition profiles_table : Table Profile.t :=
  {| name := "mkt_profiles"; rows := mkt_profiles; with_rows := with_profiles;
     clashes := fun a b => (Profile.id a =? Profile.id b)%string |}.

Definition listings_table : Table Listing.t :=
  {| name := "mkt_listings"; rows := mkt_listings; with_rows := with_listings;
     clashes := fun a b => (Listing.id a =? Listing.id b)%string |}.

Definition transactions_table : Table Transaction.t :=
  {| name := "mkt_transactions"; rows := mkt_transactions;
     with_rows := with_transactions;
     clashes := fun a b => (Transaction.id a =? Transaction.id b)%string |}.

Definition assets_table : Table Asset.t :=
  {| name := "user_assets"; rows := user_assets; with_rows := with_assets;
     clashes := fun a b => (Asset.id a =? Asset.id b)%string |}.

(** No unique index on payouts is visible from the handlers. *)
Definition payouts_table : Table Payout.t :=
  {| name := "mkt_payouts"; rows := mkt_payouts; with_rows := with_payouts;
     clashes := fun _ _ => false |}.

(** Modelled from the spec: the schema of the store is not part of the
    sources.  The ledger carries the unique index on [payment_intent]
    that the grant handler asks for ("ensure unique index on
    payment_intent") and that the data model of the specification
    states. *)
Definition ledger_table : Table Ledger.t :=
  {| name := "credits_ledger"; rows := credits_ledger; with_rows := with_ledger;
     clashes := fun a b => (Ledger.payment_intent a =? Ledger.payment_intent b)%string |}.

(** ** The monad of awaited calls *)

Inductive Completion (A : Type) : Type :=
| Normal (a : A)
| Thrown (msg : string).
Arguments Normal {A}.
Arguments Thrown {A}.

Definition M (A : Type) : Type := World -> Completion A * World.

Definition ret {A : Type} (a : A) : M A := fun w => (Normal a, w).

Definition throw {A : Type} (msg : string) : M A := fun w => (Thrown msg, w).

Definition bind {A B : Type} (m : M A) (k : A -> M B) : M B :=
  fun w =>
    match m w with
    | (Normal a, w') => k a w'
    | (Thrown msg, w') => (Thrown msg, w')
    end.

(** [try { m } catch (err) { h err }] *)
Definition try_catch {A : Type} (m : M A) (h : string -> M A) : M A :=
  fun w =>
    match m w with
    | (Normal a, w') => (Normal a, w')
    | (Thrown msg, w') => h msg w'
    end.

Declare Scope await_scope.
Delimit Scope await_scope with await.
Notation "x <- m ;; k" := (bind m (fun x => k))
  (at level 100, m at next level, right associativity) : await_scope.
Notation "m ;; k" := (bind m (fun _ => k))
  (at level 100, right associativity) : await_scope.
Local Open Scope await_scope.

Definition exec {A : Type} (m : M A) (w : World) : World := snd (m w).
Definition result {A : Type} (m : M A) (w : World) : Completion A := fst (m w).

Definition record_call (c : Call) : M unit :=
  fun w => (Normal tt, with_calls (calls w ++ [c]) w).

Definition now : M Z := fun w => (Normal (clock w), w).

(** The reply of the query builder: [{ data, error }]. *)
Record Reply (A : Type) : Type := {
  data : option A;
  error : option PgError
}.
Arguments data {A}.
Arguments error {A}.

Definition ok {A : Type} (a : option A) : Reply A := {| data := a; error := None |}.
Definition failed {A : Type} (e : PgError) : Reply A := {| data := None; error := Some e |}.

(** One round trip to the store: the call is recorded and the next
    scheduled fault, if any, is consumed. *)
Definition round_trip {R : Type} (t : Table R) (op : StoreOp) : M (option PgError) :=
  fun w =>
    (Normal (hd None (faults w)),
     with_faults (tl (faults w)) (with_calls (calls w ++ [From (name t) op]) w)).

Definition amend {R : Type} (p : R -> bool) (f : R -> R) (l : list R) : list R :=
  map (fun r => if p r then f r else r) l.

(** [.from(t).select(..).<filters p>.single()] *)
Definition select_single {R : Type} (t : Table R) (p : R -> bool) : M (Reply R) :=
  fault <- round_trip t Select ;;
  match fault with
  | Some e => ret (failed e)
  | None =>
      fun w =>
        match filter p (rows t w) with
        | [r] => (Normal (ok (Some r)), w)
        | _ => (Normal (failed no_single_row), w)
        end
  end.

(** [.from(t).update(f).<filters p>.select(..)]: the reply carries the
    rows as updated. *)
Definition update_returning {R : Type} (t : Table R) (p : R -> bool) (f : R -> R)
  : M (Reply (list R)) :=
  fault <- round_trip t Update ;;
  match fault with
  | Some e => ret (failed e)
  | None =>
      fun w =>
        (Normal (ok (Some (map f (filter p (rows t w))))),
         with_rows t (amend p f (rows t w)) w)
  end.

(** [.from(t).update(f).<filters p>]: no rows are returned. *)
Definition update {R : Type} (t : Table R) (p : R -> bool) (f : R -> R)
  : M (Reply unit) :=
  fault <- round_trip t Update ;;
  match fault with
  | Some e => ret (failed e)
  | None => fun w => (Normal (ok None), with_rows t (amend p f (rows t w)) w)
  end.

(** [.from(t).insert(r)]: refused with code 23505 when a unique index
    of the table already holds the key of [r]. *)
Definition insert {R : Type} (t : Table R) (r : R) : M (Reply unit) :=
  fault <- round_trip t Insert ;;
  match fault with
  | Some e => ret (failed e)
  | None =>
      fun w =>
        if existsb (clashes t r) (rows t w)
        then (Normal (failed unique_violation), w)
        else (Normal (ok None), with_rows t (rows t w ++ [r]) w)
  end.

(** [.from(t).upsert(r, { onConflict })]: [r] is the row as inserted
    when no row clashes with it, and [f] writes the supplied columns
    into a row that does. *)
Definition upsert {R : Type} (t : Table R) (r : R) (f : R -> R) : M (Reply unit) :=
  fault <- round_trip t Upsert ;;
  match fault with
  | Some e => ret (failed e)
  | None =>
      fun w =>
        if existsb (clashes t r) (rows t w)
        then (Normal (ok None), with_rows t (amend (clashes t r) f (rows t w)) w)
        else (Normal (ok None), with_rows t (rows t w ++ [r]) w)
  end.

(** ** Pieces shared by the two routes *)

(** [.eq(column, value)]: a stored NULL matches no value, and a null
    value matches no row. *)
Definition eq_filter (column value : option string) : bool :=
  match column, value with
  | Some c, Some v => (c =? v)%string
  | _, _ => false
  end.

Record Request : Type := {
  arrayBuffer : string;
  stripe_signature : option string
}.

Inductive Body : Type :=
| Text (s : string)
| Json_received (b : bool).

Record Response : Type := {
  body : Body;
  status_code : Z
}.

(** [new NextResponse(text, { status })] *)
Definition NextResponse (text : string) (st : Z) : Response :=
  {| body := Text text; status_code := st |}.

(** [NextResponse.json({ received: true })] *)
Definition received_true : Response :=
  {| body := Json_received true; status_code := 200 |}.

Section Provider.
Context {stripe : StripeServer}.

(** [stripe.webhooks.constructEvent(raw, sig, secret)] *)
Definition constructEvent (raw sig secret : string) : M Stripe.Event :=
  record_call (ConstructEvent secret) ;;
  match webhooks_constructEvent raw sig secret with
  | Some e => ret e
  | None => throw "No signatures found matching the expected signature"
  end.

(** [stripe.paymentIntents.retrieve(id)] *)
Definition retrieve (id : string) : M Stripe.PaymentIntent :=
  record_call (RetrievePaymentIntent id) ;;
  match paymentIntents_retrieve id with
  | Some p => ret p
  | None => throw "No such payment_intent"
  end.
End Provider.

(** [err && err.code !== c] *)
Definition other_than (c : string) (err : option PgError) : bool :=
  match err with
  | Some e => negb (code e =? c)%string
  | None => false
  end.

(** ** The credits receiver *)

Module Credits.
Section Route.
Context {stripe : StripeServer} (env : ProcessEnv).

Definition admin : M unit :=
  let url := or_else (SUPABASE_URL env) (NEXT_PUBLIC_SUPABASE_URL env) in
  let key := SUPABASE_SERVICE_KEY env in
  if negb (truthy url) || negb (truthy key)
  then throw "Missing SUPABASE_URL / SUPABASE_SERVICE_KEY"
  else ret tt.

(** The payment reference of a checkout session. *)
Definition piId (session : Stripe.Session) : string :=
  match Stripe.payment_intent session with
  | Stripe.Id s => s
  | Stripe.Expanded i => if (i =? "")%string then Stripe.id session else i
  | Stripe.Absent => Stripe.id session
  end.

(** The two readings of [{ id: userId, credits: next }] by an
    upsert on [id]: the row inserted when the user has none (the
    other columns take their defaults, NULL here), and the columns
    overwritten in a row that exists. *)
Definition balance_row (userId : string) (next : Z) : Profile.t :=
  {| Profile.id := userId; Profile.email := None;
     Profile.stripe_account_id := None;
     Profile.stripe_verified := None; Profile.is_seller := None;
     Profile.credits := Some next |}.

Definition set_balance (userId : string) (next : Z) (r : Profile.t) : Profile.t :=
  {| Profile.id := userId; Profile.email := Profile.email r;
     Profile.stripe_account_id := Profile.stripe_account_id r;
     Profile.stripe_verified := Profile.stripe_verified r;
     Profile.is_seller := Profile.is_seller r;
     Profile.credits := Some next |}.

Definition grantCredits (session : Stripe.Session) : M unit :=
  admin ;;
  let md := nullish (Stripe.metadata session) [] in
  if negb (is_string (md_get "kind" md) "credits_purchase") then ret tt else
  let userId := md_get "userId" md in
  let credits := parseInt (nullish (md_get "credits" md) "0") in
  let amount_cents := nullish (Stripe.amount_total session) 0 in
  let piId := piId session in
  match userId, credits with
  | Some userId, Some credits =>
      if (userId =? "")%string || (credits =? 0) || (credits <=? 0)
         || (piId =? "")%string
      then ret tt else
      (* 1) Idempotent ledger insert *)
      ledger <- insert ledger_table
                  {| Ledger.user_id := userId;
                     Ledger.payment_intent := piId;
                     Ledger.amount_cents := amount_cents;
                     Ledger.credits := credits;
                     Ledger.reason := "purchase" |} ;;
      if other_than "23505" (error ledger) then ret tt else
      (* 2) ALWAYS increment mkt_profiles.credits *)
      read <- select_single profiles_table
                (fun r => (Profile.id r =? userId)%string) ;;
      if other_than "PGRST116" (error read) then ret tt else
      let current :=
        nullish (match data read with
                 | Some prof => Profile.credits prof
                 | None => None
                 end) 0 in
      let next := current + credits in
      upsert profiles_table (balance_row userId next) (set_balance userId next) ;;
      ret tt
  | _, _ => ret tt
  end.

(** The route handler.  It answers at once; the work it hands to
    [queueMicrotask] is returned next to the response. *)
Definition POST (req : Request) : M (Response * option (M unit)) :=
  let raw := arrayBuffer req in
  let sig := nullish (stripe_signature req) "" in
  let primary := STRIPE_CREDITS_WEBHOOK_SECRET env in
  let connect := STRIPE_CREDITS_CONNECT_SECRET env in
  if negb (truthy primary) && negb (truthy connect)
  then ret (NextResponse "no secret" 500, None) else
  verified <-
    try_catch
      (if negb (truthy primary) then throw "skip primary" else
       event <- constructEvent raw sig (nullish primary "") ;;
       ret (inr event))
      (fun e1 =>
         if negb (truthy connect) then ret (inl (NextResponse "bad sig" 400)) else
         try_catch
           (event <- constructEvent raw sig (nullish connect "") ;;
            ret (inr event))
           (fun e2 => ret (inl (NextResponse "bad sig" 400)))) ;;
  match verified with
  | inl refusal => ret (refusal, None)
  | inr event =>
      let ack := received_true in
      ret (ack,
           Some (try_catch
                   (if (Stripe.type event =? "checkout.session.completed")%string
                    then grantCredits (Stripe.data_object event)
                    else ret tt)
                   (fun err => ret tt)))
  end.

(** A request seen from outside: the response of [POST], and the
    world once the queued microtask has run. *)
Definition serve (req : Request) : M Response :=
  answer <- POST req ;;
  match snd answer with
  | Some task => task ;; ret (fst answer)
  | None => ret (fst answer)
  end.
End Route.
End Credits.

(** ** The sale receiver *)

Module Sale.
Section Route.
Context {stripe : StripeServer} (env : ProcessEnv).

(** [verified] as computed at the head of [markSellerReadiness]. *)
Definition verified (acct : Stripe.Account) : bool :=
  Bool.eqb (Stripe.charges_enabled acct) true &&
  Bool.eqb (Stripe.payouts_enabled acct) true &&
  (List.length (nullish (match Stripe.requirements acct with
                    | Some r => r
                    | None => None
                    end) []) =? 0)%nat.

Definition markSellerReadiness (acct : Stripe.Account) : M unit :=
  let verified := verified acct in
  let userId :=
    match Stripe.metadata acct with
    | Some md => md_get "user_id" md
    | None => None
    end in
  (if truthy userId then
     upsert profiles_table
       {| Profile.id := nullish userId ""; Profile.email := None;
          Profile.stripe_account_id := Some (Stripe.id acct);
          Profile.stripe_verified := Some verified;
          Profile.is_seller := Some verified;
          Profile.credits := None |}
       (fun r =>
          {| Profile.id := Profile.id r; Profile.email := None;
             Profile.stripe_account_id := Some (Stripe.id acct);
             Profile.stripe_verified := Some verified;
             Profile.is_seller := Some verified;
             Profile.credits := Profile.credits r |}) ;;
     ret tt
   else ret tt) ;;
  update profiles_table
    (fun r => eq_filter (Profile.stripe_account_id r) (Some (Stripe.id acct)))
    (fun r =>
       {| Profile.id := Profile.id r; Profile.email := Profile.email r;
          Profile.stripe_account_id := Profile.stripe_account_id r;
          Profile.stripe_verified := Some verified;
          Profile.is_seller := Some verified;
          Profile.credits := Profile.credits r |}) ;;
  ret tt.

Definition set_owner (buyerId : string) (a : Asset.t) : Asset.t :=
  {| Asset.id := Asset.id a; Asset.owner_id := buyerId;
     Asset.source_type := Asset.source_type a;
     Asset.source_id := Asset.source_id a |}.

Definition transferAssetToBuyer (listingId buyerId : string) : M unit :=
  found <- select_single listings_table
             (fun l => (Listing.id l =? listingId)%string) ;;
  match error found, data found with
  | None, Some listing =>
      if (Listing.source_type listing =? "asset")%string then
        update assets_table
          (fun a => (Asset.id a =? Listing.source_id listing)%string)
          (set_owner buyerId) ;;
        ret tt
      else
        (* legacy mapping *)
        update assets_table
          (fun a => (Asset.source_type a =? "uploaded_image")%string
                    && (Asset.source_id a =? Listing.source_id listing)%string)
          (set_owner buyerId) ;;
        ret tt
  | _, _ => ret tt
  end.

Definition queuePayoutIfPossible
    (listingId : string) (sellerId : option string) (netCents : Z) : M unit :=
  if negb (truthy sellerId) || (netCents =? 0) || (netCents <=? 0) then ret tt else
  found <- select_single profiles_table
             (fun r => (Profile.id r =? nullish sellerId "")%string) ;;
  match error found with
  | Some sellerErr => ret tt
  | None =>
      let account :=
        match data found with
        | Some seller => Profile.stripe_account_id seller
        | None => None
        end in
      if negb (truthy account) then ret tt else
      t <- now ;;
      let when := t + 10 * 60 * 1000 in
      insert payouts_table
        {| Payout.listing_id := listingId;
           Payout.stripe_account_id := nullish account "";
           Payout.amount_cents := netCents;
           Payout.scheduled_at := when;
           Payout.status := "pending" |} ;;
      ret tt
  end.

Definition set_failed (t : Z) (tx : Transaction.t) : Transaction.t :=
  {| Transaction.id := Transaction.id tx;
     Transaction.stripe_payment_id := Transaction.stripe_payment_id tx;
     Transaction.listing_id := Transaction.listing_id tx;
     Transaction.buyer_id := Transaction.buyer_id tx;
     Transaction.status := "failed";
     Transaction.updated_at := Some t |}.

Definition released (t : Z) (l : Listing.t) : Listing.t :=
  {| Listing.id := Listing.id l;
     Listing.source_type := Listing.source_type l;
     Listing.source_id := Listing.source_id l;
     Listing.buyer_id := None;
     Listing.status := "active";
     Listing.is_active := true;
     Listing.updated_at := Some t |}.

Definition markTxFailed
    (stripeId : string) (listingId buyerId : option string) : M unit :=
  (* mark tx failed *)
  t <- now ;;
  update transactions_table
    (fun tx => eq_filter (Transaction.stripe_payment_id tx) (Some stripeId))
    (set_failed t) ;;
  (* put listing back to active if we pessimistically reserved it *)
  if truthy listingId then
    t <- now ;;
    update listings_table
      (fun l => (Listing.id l =? nullish listingId "")%string
                && eq_filter (Listing.buyer_id l) buyerId)
      (released t) ;;
    ret tt
  else ret tt.

Definition amountCents (fresh : Stripe.PaymentIntent) : Z :=
  nullish (Stripe.amount_received fresh) (Stripe.amount fresh).

Definition platformFeeCents (fresh : Stripe.PaymentIntent) : Z :=
  nullish (Stripe.application_fee_amount fresh) 0.

Definition netCents (fresh : Stripe.PaymentIntent) : Z :=
  Z.max 0 (amountCents fresh - platformFeeCents fresh).

Definition set_completed (t : Z) (tx : Transaction.t) : Transaction.t :=
  {| Transaction.id := Transaction.id tx;
     Transaction.stripe_payment_id := Transaction.stripe_payment_id tx;
     Transaction.listing_id := Transaction.listing_id tx;
     Transaction.buyer_id := Transaction.buyer_id tx;
     Transaction.status := "completed";
     Transaction.updated_at := Some t |}.

Definition set_completed_with (stripeId : string) (t : Z) (tx : Transaction.t)
  : Transaction.t :=
  {| Transaction.id := Transaction.id tx;
     Transaction.stripe_payment_id := Some stripeId;
     Transaction.listing_id := Transaction.listing_id tx;
     Transaction.buyer_id := Transaction.buyer_id tx;
     Transaction.status := "completed";
     Transaction.updated_at := Some t |}.

Definition sold_to (buyerId : string) (t : Z) (l : Listing.t) : Listing.t :=
  {| Listing.id := Listing.id l;
     Listing.source_type := Listing.source_type l;
     Listing.source_id := Listing.source_id l;
     Listing.buyer_id := Some buyerId;
     Listing.status := "sold";
     Listing.is_active := false;
     Listing.updated_at := Some t |}.

(** The fallback filter of the settlement:
    [listing_id], [buyer_id] and [status = "pending"]. *)
Definition pending_for (listingId buyerId : string) (tx : Transaction.t) : bool :=
  (Transaction.listing_id tx =? listingId)%string
  && (Transaction.buyer_id tx =? buyerId)%string
  && (Transaction.status tx =? "pending")%string.

(** [!tx1?.length] *)
Definition no_rows {A : Type} (d : option (list A)) : bool :=
  match d with
  | Some (_ :: _) => false
  | _ => true
  end.

Definition handlePaymentIntentSucceeded (pi : Stripe.PaymentIntent) : M unit :=
  (* Always re-fetch *)
  fresh <- retrieve (Stripe.id pi) ;;
  if negb (Stripe.status fresh =? "succeeded")%string then ret tt else
  let md := nullish (Stripe.metadata fresh) [] in
  let listingId := md_get "mkt_listing_id" md in
  let buyerId := md_get "mkt_buyer_id" md in
  let sellerId := md_get "mkt_seller_id" md in
  if negb (truthy listingId) || negb (truthy buyerId) then ret tt else
  let listingId := nullish listingId "" in
  let buyerId := nullish buyerId "" in
  let stripeId := Stripe.id fresh in
  let netCents := netCents fresh in
  (* 1) complete transaction (by stripe id, else fallback) *)
  t <- now ;;
  tx1 <- update_returning transactions_table
           (fun tx => eq_filter (Transaction.stripe_payment_id tx) (Some stripeId))
           (set_completed t) ;;
  (if no_rows (data tx1) then
     t <- now ;;
     update transactions_table
       (pending_for listingId buyerId)
       (set_completed_with stripeId t) ;;
     ret tt
   else ret tt) ;;
  (* 2) mark listing sold *)
  t <- now ;;
  update listings_table
    (fun l => (Listing.id l =? listingId)%string)
    (sold_to buyerId t) ;;
  (* 3) transfer ownership *)
  transferAssetToBuyer listingId buyerId ;;
  (* 4) queue payout *)
  queuePayoutIfPossible listingId sellerId netCents.

Definition handlePaymentIntentFailed (pi : Stripe.PaymentIntent) : M unit :=
  let md := nullish (Stripe.metadata pi) [] in
  markTxFailed (Stripe.id pi) (md_get "mkt_listing_id" md) (md_get "mkt_buyer_id" md).

Definition handleChargeRefunded (ch : Stripe.Charge) : M unit :=
  let piId :=
    match Stripe.payment_intent ch with
    | Stripe.Id s => Some s
    | Stripe.Expanded i => Some i
    | Stripe.Absent => None
    end in
  markTxFailed (nullish piId "") None None.

(** The [switch] of the route on [event.type]. *)
Definition dispatch (event : Stripe.Event) : M unit :=
  let on s := (Stripe.type event =? s)%string in
  let object := Stripe.data_object event in
  if on "payment_intent.succeeded" then
    handlePaymentIntentSucceeded object
  else if on "payment_intent.payment_failed" || on "payment_intent.canceled" then
    handlePaymentIntentFailed object
  else if on "checkout.session.async_payment_failed" then
    let s := object in
    let md := nullish (Stripe.metadata s) [] in
    markTxFailed
      (match Stripe.payment_intent s with
       | Stripe.Id p => p
       | Stripe.Expanded i => i
       | Stripe.Absent => Stripe.id s
       end)
      (md_get "mkt_listing_id" md)
      (md_get "mkt_buyer_id" md)
  else if on "charge.refunded" then
    handleChargeRefunded object
  else if on "account.updated" || on "capability.updated"
          || on "account.application.authorized" then
    markSellerReadiness object
  else ret tt.

Definition POST (req : Request) : M Response :=
  let rawBody := arrayBuffer req in
  let sig := nullish (stripe_signature req) "" in
  let primary := STRIPE_WEBHOOK_SECRET env in
  let connect := STRIPE_CONNECT_WEBHOOK_SECRET env in
  if negb (truthy primary) && negb (truthy connect)
  then ret (NextResponse "webhook secret missing" 500) else
  verified <-
    try_catch
      (if negb (truthy primary) then throw "skip primary" else
       event <- constructEvent rawBody sig (nullish primary "") ;;
       ret (inr event))
      (fun e1 =>
         if negb (truthy connect) then ret (inl (NextResponse "bad sig" 400)) else
         try_catch
           (event <- constructEvent rawBody sig (nullish connect "") ;;
            ret (inr event))
           (fun _ => ret (inl (NextResponse "bad sig" 400)))) ;;
  match verified with
  | inl refusal => ret refusal
  | inr event =>
      try_catch (dispatch event) (fun err => ret tt) ;;
      ret received_true
  end.
End Route.
End Sale.

(** ** Fixtures: a provider stub and small worlds *)

(** A provider that signs with [secret], delivers [event] and knows the
    payment intents [known]. *)
Definition stub_stripe (secret : string) (event : Stripe.Event)
    (known : list Stripe.PaymentIntent) : StripeServer :=
  {| webhooks_constructEvent := fun raw sig s =>
       if (sig =? s)%string && (s =? secret)%string then Some event else None;
     paymentIntents_retrieve := fun i =>
       find (fun p => (Stripe.id p =? i)%string) known |}.

Definition blank_object : Stripe.Object :=
  {| Stripe.id := ""; Stripe.status := ""; Stripe.metadata := None;
     Stripe.amount := 0; Stripe.amount_received := None;
     Stripe.application_fee_amount := None;
     Stripe.payment_intent := Stripe.Absent; Stripe.amount_total := None;
     Stripe.charges_enabled := false; Stripe.payouts_enabled := false;
     Stripe.requirements := None |}.

Definition empty_world : World :=
  {| mkt_profiles := []; mkt_listings := []; mkt_transactions := [];
     user_assets := []; mkt_payouts := []; credits_ledger := [];
     faults := []; calls := []; clock := 1700000000000 |}.

Definition test_env : ProcessEnv :=
  {| STRIPE_WEBHOOK_SECRET := Some "whsec_a";
     STRIPE_CONNECT_WEBHOOK_SECRET := Some "whsec_b";
     STRIPE_CREDITS_WEBHOOK_SECRET := Some "whsec_c";
     STRIPE_CREDITS_CONNECT_SECRET := None;
     SUPABASE_URL := Some "https://store.test";
     NEXT_PUBLIC_SUPABASE_URL := None;
     SUPABASE_SERVICE_KEY := Some "service-key" |}.

(** A completed checkout session buying 50 credits for [U1]. *)
Definition credits_session : Stripe.Session :=
  {| Stripe.id := "cs_1"; Stripe.status := "complete";
     Stripe.metadata :=
       Some [("kind", "credits_purchase"); ("userId", "U1"); ("credits", "50")];
     Stripe.amount := 0; Stripe.amount_received := None;
     Stripe.application_fee_amount := None;
     Stripe.payment_intent := Stripe.Id "pi_1"; Stripe.amount_total := Some 499;
     Stripe.charges_enabled := false; Stripe.payouts_enabled := false;
     Stripe.requirements := None |}.

(** A succeeded payment for listing [L1], buyer [U2], seller [U3]:
    captured 1000, fee 100. *)
Definition sale_intent : Stripe.PaymentIntent :=
  {| Stripe.id := "pi_9"; Stripe.status := "succeeded";
     Stripe.metadata :=
       Some [("mkt_listing_id", "L1"); ("mkt_buyer_id", "U2");
             ("mkt_seller_id", "U3")];
     Stripe.amount := 1000; Stripe.amount_received := Some 1000;
     Stripe.application_fee_amount := Some 100;
     Stripe.payment_intent := Stripe.Absent; Stripe.amount_total := None;
     Stripe.charges_enabled := false; Stripe.payouts_enabled := false;
     Stripe.requirements := None |}.

Definition sale_world : World :=
  {| mkt_profiles :=
       [ {| Profile.id := "U3"; Profile.email := None;
            Profile.stripe_account_id := Some "acct_3";
            Profile.stripe_verified := Some true; Profile.is_seller := Some true;
            Profile.credits := None |} ];
     mkt_listings :=
       [ {| Listing.id := "L1"; Listing.source_type := "asset";
            Listing.source_id := "A1"; Listing.buyer_id := Some "U2";
            Listing.status := "active"; Listing.is_active := true;
            Listing.updated_at := None |} ];
     mkt_transactions :=
       [ {| Transaction.id := "T1"; Transaction.stripe_payment_id := None;
            Transaction.listing_id := "L1"; Transaction.buyer_id := "U2";
            Transaction.status := "pending"; Transaction.updated_at := None |} ];
     user_assets :=
       [ {| Asset.id := "A1"; Asset.owner_id := "U3";
            Asset.source_type := "generated"; Asset.source_id := "G1" |} ];
     mkt_payouts := []; credits_ledger := [];
     faults := []; calls := []; clock := 1700000000000 |}.

Definition sale_stripe : StripeServer :=
  stub_stripe "whsec_a"
    {| Stripe.type := "payment_intent.succeeded"; Stripe.data_object := sale_intent |}
    [sale_intent].

Definition credits_stripe : StripeServer :=
  stub_stripe "whsec_c"
    {| Stripe.type := "checkout.session.completed";
       Stripe.data_object := credits_session |}
    [].

(** A provider that accepts every signature and delivers [event]. *)
Definition lenient_stripe (event : Stripe.Event) : StripeServer :=
  {| webhooks_constructEvent := fun _ _ _ => Some event;
     paymentIntents_retrieve := fun _ => None |}.

(** An event of a type neither route has a [case] for. *)
Definition customer_created : Stripe.Event :=
  {| Stripe.type := "customer.created"; Stripe.data_object := blank_object |}.

(** A payment for [L1] and [U2] that the provider still reports as
    processing. *)
Definition processing_intent : Stripe.PaymentIntent :=
  {| Stripe.id := "pi_7"; Stripe.status := "processing";
     Stripe.metadata := Some [("mkt_listing_id", "L1"); ("mkt_buyer_id", "U2")];
     Stripe.amount := 1000; Stripe.amount_received := None;
     Stripe.application_fee_amount := None;
     Stripe.payment_intent := Stripe.Absent; Stripe.amount_total := None;
     Stripe.charges_enabled := false; Stripe.payouts_enabled := false;
     Stripe.requirements := None |}.

Definition processing_stripe : StripeServer :=
  stub_stripe "whsec_a"
    {| Stripe.type := "payment_intent.succeeded";
       Stripe.data_object := processing_intent |}
    [processing_intent].


(** The seller account of [U3], fully onboarded. *)
Definition ready_account : Stripe.Account :=
  {| Stripe.id := "acct_3"; Stripe.status := "";
     Stripe.metadata := Some [("user_id", "U3")];
     Stripe.amount := 0; Stripe.amount_received := None;
     Stripe.application_fee_amount := None;
     Stripe.payment_intent := Stripe.Absent; Stripe.amount_total := None;
     Stripe.charges_enabled := true; Stripe.payouts_enabled := true;
     Stripe.requirements := Some (Some []) |}.

Definition signed_request (sig : string) : Request :=
  {| arrayBuffer := "{}"; stripe_signature := Some sig |}.

(** An environment with the signing secrets but no store credentials. *)
Definition bare_env : ProcessEnv :=
  {| STRIPE_WEBHOOK_SECRET := Some "whsec_a";
     STRIPE_CONNECT_WEBHOOK_SECRET := Some "whsec_b";
     STRIPE_CREDITS_WEBHOOK_SECRET := Some "whsec_c";
     STRIPE_CREDITS_CONNECT_SECRET := None;
     SUPABASE_URL := None;
     NEXT_PUBLIC_SUPABASE_URL := None;
     SUPABASE_SERVICE_KEY := None |}.

(** A store refusing calls for lack of privilege. *)
Definition insufficient_privilege : PgError :=
  {| code := "42501"; message := "permission denied" |}.

(** The empty store, about to refuse its next call. *)
Definition refusing_world : World :=
  with_faults [Some insufficient_privilege] empty_world.

(** The empty store, about to answer two calls and refuse the third. *)
Definition third_call_refused_world : World :=
  with_faults [None; None; Some insufficient_privilege] empty_world.


(** The account [acct_3] as notified without metadata. *)
Definition untagged_account : Stripe.Account :=
  {| Stripe.id := "acct_3"; Stripe.status := ""; Stripe.metadata := None;
     Stripe.amount := 0; Stripe.amount_received := None;
     Stripe.application_fee_amount := None;
     Stripe.payment_intent := Stripe.Absent; Stripe.amount_total := None;
     Stripe.charges_enabled := true; Stripe.payouts_enabled := false;
     Stripe.requirements := None |}.

(** A provider that delivers the succeeded sale but cannot retrieve
    it. *)
Definition forgetful_stripe : StripeServer :=
  lenient_stripe
    {| Stripe.type := "payment_intent.succeeded"; Stripe.data_object := sale_intent |}.

(** A provider that delivers the completed credits session under any
    signature. *)
Definition lenient_credits_stripe : StripeServer :=
  lenient_stripe
    {| Stripe.type := "checkout.session.completed";
       Stripe.data_object := credits_session |}.

(** ** Signature verification, in the words of the specification

    The configured secrets are tried in order, primary first, until
    one verifies the payload.  [try_in_order] gives the attempts made
    and the event obtained, if any. *)

Definition configured (primary connect : option string) : list string :=
  (if truthy primary then [nullish primary ""] else [])
  ++ (if truthy connect then [nullish connect ""] else []).

Fixpoint try_in_order {stripe : StripeServer} (raw sig : string)
    (secrets : list string) : list Call * option Stripe.Event :=
  match secrets with
  | [] => ([], None)
  | s :: later =>
      match webhooks_constructEvent raw sig s with
      | Some e => ([ConstructEvent s], Some e)
      | None =>
          let '(attempts, outcome) := try_in_order raw sig later in
          (ConstructEvent s :: attempts, outcome)
      end
  end.

(** The event types with a [case] in the sale receiver's [switch]. *)
Definition sale_event_types : list string :=
  [ "payment_intent.succeeded";
    "payment_intent.payment_failed";
    "payment_intent.canceled";
    "checkout.session.async_payment_failed";
    "charge.refunded";
    "account.updated";
    "capability.updated";
    "account.application.authorized" ].

(** ** Vocabulary of the properties *)

(** A handler step respects a relation between the world before and
    the world after. *)
Definition stable (I : World -> World -> Prop) {A : Type} (m : M A) : Prop :=
  forall w, I w (exec m w).

(** The trace of calls only grows. *)
Definition grows (w w' : World) : Prop :=
  exists later, calls w' = calls w ++ later.

(** A part of the world a step leaves alone. *)
Definition keeps {X : Type} (proj : World -> X) (w w' : World) : Prop :=
  proj w' = proj w.

(** What the settlement may do to the payouts: nothing, or one more
    row for the net amount. *)
Definition payout_added (listingId : string) (sellerId : option string)
    (net : Z) (before after : list Payout.t) : Prop :=
  after = before \/
  exists row,
    after = before ++ [row] /\
    Payout.amount_cents row = net /\ 0 < net /\
    truthy sellerId = true /\
    Payout.listing_id row = listingId /\ Payout.status row = "pending".

(** The store credentials [admin()] needs are set. *)
Definition store_configured (env : ProcessEnv) : Prop :=
  truthy (or_else (SUPABASE_URL env) (NEXT_PUBLIC_SUPABASE_URL env)) = true
  /\ truthy (SUPABASE_SERVICE_KEY env) = true.

(** A checkout session tagged as a purchase of [c] credits by user
    [u], which passes the guards of the grant handler. *)
Definition credits_purchase (session : Stripe.Session) (u : string) (c : Z) : Prop :=
  let md := nullish (Stripe.metadata session) [] in
  md_get "kind" md = Some "credits_purchase"
  /\ md_get "userId" md = Some u /\ u <> ""
  /\ parseInt (nullish (md_get "credits" md) "0") = Some c /\ 0 < c
  /\ Credits.piId session <> "".

(** The ledger row of a purchase. *)
Definition purchase_row (session : Stripe.Session) (u : string) (c : Z) : Ledger.t :=
  {| Ledger.user_id := u;
     Ledger.payment_intent := Credits.piId session;
     Ledger.amount_cents := nullish (Stripe.amount_total session) 0;
     Ledger.credits := c;
     Ledger.reason := "purchase" |}.

(** The stored credit balance of a user: the [credits] column of the
    user's profile row, 0 when the row or the value is missing. *)
Definition balance (u : string) (w : World) : Z :=
  nullish (match find (fun r => (Profile.id r =? u)%string) (mkt_profiles w) with
           | Some r => Profile.credits r
           | None => None
           end) 0.

Definition ledger_rows_for (p : string) (w : World) : list Ledger.t :=
  filter (fun r => (Ledger.payment_intent r =? p)%string) (credits_ledger w).

(** Two deliveries of the same completed session. *)
Definition delivered_twice (env : ProcessEnv) (session : Stripe.Session) : M unit :=
  Credits.grantCredits env session ;; Credits.grantCredits env session.


(** A step that never throws. *)
Definition returns {A : Type} (m : M A) : Prop :=
  forall w, exists a, result m w = Normal a.

(** A step that leaves the listings and the clock alone and does not
    wake a store that answers every call. *)
Definition quiet (w w' : World) : Prop :=
  mkt_listings w' = mkt_listings w
  /\ clock w' = clock w
  /\ (faults w = [] -> faults w' = []).


(** The balance of [u] as read off a list of profile rows. *)
Definition balance_in (l : list Profile.t) (u : string) : Z :=
  nullish (match find (fun r => (Profile.id r =? u)%string) l with
           | Some r => Profile.credits r
           | None => None
           end) 0.

(** What belongs to the credits receiver is as it was: the ledger and
    every user's balance. *)
Definition credits_untouched (w w' : World) : Prop :=
  credits_ledger w' = credits_ledger w
  /\ forall u, balance u w' = balance u w.

(** The tables of the sale receiver other than the profiles. *)
Definition sale_tables (w : World) :
    list Listing.t * list Transaction.t * list Asset.t * list Payout.t :=
  (mkt_listings w, mkt_transactions w, user_assets w, mkt_payouts w).

(** The assets a listing stands for: the asset whose id is the
    listing's [source_id] when the listing is of type "asset", and
    otherwise the uploaded images with that [source_id]. *)
Definition listed_asset (listing : Listing.t) (a : Asset.t) : bool :=
  if (Listing.source_type listing =? "asset")%string
  then (Asset.id a =? Listing.source_id listing)%string
  else (Asset.source_type a =? "uploaded_image")%string
       && (Asset.source_id a =? Listing.source_id listing)%string.

(** A step that is [quiet] and leaves the assets alone. *)
Definition undisturbed (w w' : World) : Prop :=
  quiet w w' /\ user_assets w' = user_assets w.

(** Against a store that answers, with [listing] the one row of the
    listing [L]: the assets it stands for now belong to [B], the
    others are as they were. *)
Definition asset_handed (L B : string) (listing : Listing.t) (w w' : World) : Prop :=
  faults w = [] ->
  filter (fun l => (Listing.id l =? L)%string) (mkt_listings w) = [listing] ->
  Forall2
    (fun a a' => a' = if listed_asset listing a then Sale.set_owner B a else a)
    (user_assets w) (user_assets w').

(** * Properties *)

(** ** Running the monad *)

Lemma exec_bind {A B : Type} (m : M A) (k : A -> M B) (w : World) :
  exec (bind m k) w =
  match result m w with
  | Normal a => exec (k a) (exec m w)
  | Thrown _ => exec m w
  end.
Proof.
  unfold exec, result, bind. destruct (m w) as [[a | msg] w']; reflexivity.
Qed.

Lemma with_calls_twice (w : World) (l1 l2 : list Call) :
  with_calls l2 (with_calls l1 w) = with_calls l2 w.
Proof. reflexivity. Qed.

Lemma with_calls_nil (w : World) : with_calls (calls w ++ []) w = w.
Proof. destruct w; unfold with_calls; simpl. now rewrite app_nil_r. Qed.

(** ** Relations every step of a handler respects *)

Section Stable.
Variable I : World -> World -> Prop.
Hypothesis I_refl : forall w, I w w.
Hypothesis I_trans : forall a b c, I a b -> I b c -> I a c.

Lemma stable_ret {A : Type} (a : A) : stable I (ret a).
Proof. intro w. apply I_refl. Qed.

Lemma stable_throw {A : Type} (msg : string) : stable I (@throw A msg).
Proof. intro w. apply I_refl. Qed.

Lemma stable_now : stable I now.
Proof. intro w. apply I_refl. Qed.

Lemma stable_bind {A B : Type} (m : M A) (k : A -> M B) :
  stable I m -> (forall a, stable I (k a)) -> stable I (bind m k).
Proof.
  intros Hm Hk w. rewrite exec_bind.
  destruct (result m w); [eapply I_trans; [apply Hm | apply Hk] | apply Hm].
Qed.

Lemma stable_try_catch {A : Type} (m : M A) (h : string -> M A) :
  stable I m -> (forall e, stable I (h e)) -> stable I (try_catch m h).
Proof.
  intros Hm Hh w. unfold exec, try_catch.
  pose proof (Hm w) as H1. unfold exec in H1.
  destruct (m w) as [[a | msg] w']; simpl in *; [assumption |].
  eapply I_trans; [exact H1 | apply Hh].
Qed.
End Stable.

(** ** The two routes, case by case *)

Ltac run_verification :=
  repeat match goal with
         | |- context [webhooks_constructEvent ?r ?s ?k] =>
             destruct (webhooks_constructEvent r s k) eqn:?; simpl
         end;
  rewrite ?with_calls_twice, <- ?app_assoc, ?with_calls_nil; simpl;
  try reflexivity.

Lemma sale_POST_cases {stripe : StripeServer} (env : ProcessEnv)
    (req : Request) (w : World) :
  let secrets :=
    configured (STRIPE_WEBHOOK_SECRET env) (STRIPE_CONNECT_WEBHOOK_SECRET env) in
  let tried :=
    try_in_order (arrayBuffer req) (nullish (stripe_signature req) "") secrets in
  Sale.POST env req w =
  match secrets with
  | [] => (Normal (NextResponse "webhook secret missing" 500), w)
  | _ :: _ =>
      match snd tried with
      | None =>
          (Normal (NextResponse "bad sig" 400), with_calls (calls w ++ fst tried) w)
      | Some event =>
          (try_catch (Sale.dispatch event) (fun _ => ret tt) ;; ret received_true)
            (with_calls (calls w ++ fst tried) w)
      end
  end.
Proof.
  unfold Sale.POST, configured.
  destruct (truthy (STRIPE_WEBHOOK_SECRET env)) eqn:Hp;
    destruct (truthy (STRIPE_CONNECT_WEBHOOK_SECRET env)) eqn:Hc; simpl;
    try reflexivity;
    unfold bind, try_catch, constructEvent, record_call, bind, throw, ret; simpl;
    run_verification.
Qed.

Lemma credits_POST_cases {stripe : StripeServer} (env : ProcessEnv)
    (req : Request) (w : World) :
  let secrets :=
    configured (STRIPE_CREDITS_WEBHOOK_SECRET env) (STRIPE_CREDITS_CONNECT_SECRET env) in
  let tried :=
    try_in_order (arrayBuffer req) (nullish (stripe_signature req) "") secrets in
  Credits.POST env req w =
  match secrets with
  | [] => (Normal (NextResponse "no secret" 500, None), w)
  | _ :: _ =>
      match snd tried with
      | None =>
          (Normal (NextResponse "bad sig" 400, None),
           with_calls (calls w ++ fst tried) w)
      | Some event =>
          (Normal
             (received_true,
              Some (try_catch
                      (if (Stripe.type event =? "checkout.session.completed")%string
                       then Credits.grantCredits env (Stripe.data_object event)
                       else ret tt)
                      (fun _ => ret tt))),
           with_calls (calls w ++ fst tried) w)
      end
  end.
Proof.
  unfold Credits.POST, configured.
  destruct (truthy (STRIPE_CREDITS_WEBHOOK_SECRET env)) eqn:Hp;
    destruct (truthy (STRIPE_CREDITS_CONNECT_SECRET env)) eqn:Hc; simpl;
    try reflexivity;
    unfold bind, try_catch, constructEvent, record_call, bind, throw, ret; simpl;
    run_verification.
Qed.

Lemma credits_serve_cases {stripe : StripeServer} (env : ProcessEnv)
    (req : Request) (w : World) :
  let secrets :=
    configured (STRIPE_CREDITS_WEBHOOK_SECRET env) (STRIPE_CREDITS_CONNECT_SECRET env) in
  let tried :=
    try_in_order (arrayBuffer req) (nullish (stripe_signature req) "") secrets in
  Credits.serve env req w =
  match secrets with
  | [] => (Normal (NextResponse "no secret" 500), w)
  | _ :: _ =>
      match snd tried with
      | None =>
          (Normal (NextResponse "bad sig" 400), with_calls (calls w ++ fst tried) w)
      | Some event =>
          (try_catch
             (if (Stripe.type event =? "checkout.session.completed")%string
              then Credits.grantCredits env (Stripe.data_object event)
              else ret tt)
             (fun _ => ret tt) ;;
           ret received_true)
            (with_calls (calls w ++ fst tried) w)
      end
  end.
Proof.
  intros secrets tried. unfold Credits.serve, bind at 1.
  rewrite credits_POST_cases. fold secrets tried.
  destruct secrets; [reflexivity |].
  destruct (snd tried); reflexivity.
Qed.

Lemma dispatch_unrecognised {stripe : StripeServer} (event : Stripe.Event) :
  ~ In (Stripe.type event) sale_event_types ->
  Sale.dispatch event = ret tt.
Proof.
  intro H. unfold Sale.dispatch.
  repeat match goal with
         | |- context [(Stripe.type event =? ?s)%string] =>
             let E := fresh "E" in
             destruct (String.eqb_spec (Stripe.type event) s) as [E | E];
             [exfalso; apply H; rewrite E; simpl; tauto | clear E]
         end.
  reflexivity.
Qed.

(** ** Signature verification (C5) *)

(** C5.  Both routes try the primary secret when it is configured and
    then the connected-account secret when the first attempt failed or
    the primary is absent ([try_in_order] over [configured]).  With no
    secret configured the answer is status 500 and nothing is called;
    when every configured secret fails the answer is status 400, the
    only calls made are the verification attempts, no handler runs and
    no microtask is queued, so the store is as it was. *)
Theorem verification_tries_both_secrets_then_rejects
    {stripe : StripeServer} (env : ProcessEnv) (req : Request) (w : World) :
  let raw := arrayBuffer req in
  let sig := nullish (stripe_signature req) "" in
  let sale :=
    configured (STRIPE_WEBHOOK_SECRET env) (STRIPE_CONNECT_WEBHOOK_SECRET env) in
  let credits :=
    configured (STRIPE_CREDITS_WEBHOOK_SECRET env) (STRIPE_CREDITS_CONNECT_SECRET env) in
  Sale.POST env req w =
    match sale with
    | [] => (Normal (NextResponse "webhook secret missing" 500), w)
    | _ :: _ =>
        match snd (try_in_order raw sig sale) with
        | None =>
            (Normal (NextResponse "bad sig" 400),
             with_calls (calls w ++ fst (try_in_order raw sig sale)) w)
        | Some event =>
            (try_catch (Sale.dispatch event) (fun _ => ret tt) ;; ret received_true)
              (with_calls (calls w ++ fst (try_in_order raw sig sale)) w)
        end
    end
  /\
  Credits.POST env req w =
    match credits with
    | [] => (Normal (NextResponse "no secret" 500, None), w)
    | _ :: _ =>
        match snd (try_in_order raw sig credits) with
        | None =>
            (Normal (NextResponse "bad sig" 400, None),
             with_calls (calls w ++ fst (try_in_order raw sig credits)) w)
        | Some event =>
            (Normal
               (received_true,
                Some (try_catch
                        (if (Stripe.type event =? "checkout.session.completed")%string
                         then Credits.grantCredits env (Stripe.data_object event)
                         else ret tt)
                        (fun _ => ret tt))),
             with_calls (calls w ++ fst (try_in_order raw sig credits)) w)
        end
    end.
Proof.
  split; [apply sale_POST_cases | apply credits_POST_cases].
Qed.

(** ** Unrecognised event types (C6) *)

(** C6.  When verification yields an event whose type has no [case] in
    the route, the route answers [{ received: true }] and the world
    differs from the initial one only by the verification attempts: no
    handler ran, no call reached the store or the provider, no table
    changed.  For the credits route this is the world after the queued
    microtask has run. *)
Theorem unrecognised_event_is_acknowledged_untouched
    {stripe : StripeServer} (env : ProcessEnv) (req : Request) (w : World)
    (event : Stripe.Event) :
  let raw := arrayBuffer req in
  let sig := nullish (stripe_signature req) "" in
  let sale :=
    try_in_order raw sig
      (configured (STRIPE_WEBHOOK_SECRET env) (STRIPE_CONNECT_WEBHOOK_SECRET env)) in
  let credits :=
    try_in_order raw sig
      (configured (STRIPE_CREDITS_WEBHOOK_SECRET env)
                  (STRIPE_CREDITS_CONNECT_SECRET env)) in
  (snd sale = Some event ->
   ~ In (Stripe.type event) sale_event_types ->
   Sale.POST env req w
   = (Normal received_true, with_calls (calls w ++ fst sale) w))
  /\
  (snd credits = Some event ->
   Stripe.type event <> "checkout.session.completed" ->
   Credits.serve env req w
   = (Normal received_true, with_calls (calls w ++ fst credits) w)).
Proof.
  simpl. split.
  - intros Hv Hty. rewrite sale_POST_cases.
    destruct (configured _ _) eqn:Hs; [simpl in Hv; discriminate |].
    rewrite Hv, (dispatch_unrecognised _ Hty). reflexivity.
  - intros Hv Hty. rewrite credits_serve_cases.
    destruct (configured _ _) eqn:Hs; [simpl in Hv; discriminate |].
    rewrite Hv. apply String.eqb_neq in Hty. rewrite Hty. reflexivity.
Qed.

(** ** Row-wise updates *)

Lemma amend_rowwise {R : Type} (p : R -> bool) (f : R -> R) (l : list R) :
  Forall2 (fun r r' => r' = if p r then f r else r) l (amend p f l).
Proof.
  induction l as [| r l IH]; simpl; constructor; auto.
Qed.

Lemma rowwise_same {R : Type} (P : R -> R -> Prop) (l : list R) :
  (forall r, P r r) -> Forall2 P l l.
Proof.
  intro H. induction l; constructor; auto.
Qed.

Lemma rowwise_weaken {R : Type} (P Q : R -> R -> Prop) (l l' : list R) :
  (forall r r', P r r' -> Q r r') -> Forall2 P l l' -> Forall2 Q l l'.
Proof.
  intros H F. induction F; constructor; auto.
Qed.

Ltac run_store :=
  unfold exec, result, update, update_returning, insert, upsert, select_single,
    round_trip, bind, now, ret, throw; simpl.

Ltac case_faults :=
  repeat match goal with
         | |- context [match hd None ?l with _ => _ end] =>
             destruct (hd None l) eqn:?; simpl
         end.

Ltac case_clash :=
  match goal with
  | |- context [existsb ?p ?l] => destruct (existsb p l) eqn:?; simpl
  end.

(** ** Reversal (C2, C9) *)



(** ** What the store primitives respect *)

Section StablePrimitives.
Variable I : World -> World -> Prop.
Hypothesis I_refl : forall w, I w w.
Hypothesis I_trans : forall a b c, I a b -> I b c -> I a c.
Hypothesis I_round_trip :
  forall w c, I w (with_faults (tl (faults w)) (with_calls (calls w ++ [c]) w)).

Context {R : Type} (t : Table R).

Lemma stable_select_single (p : R -> bool) : stable I (select_single t p).
Proof.
  intro w. run_store. case_faults; [apply I_round_trip |].
  destruct (filter p _) as [| r [| r' l]]; apply I_round_trip.
Qed.

Hypothesis I_write : forall v w, I w (with_rows t v w).

Lemma stable_update (p : R -> bool) (f : R -> R) : stable I (update t p f).
Proof.
  intro w. run_store. case_faults; [apply I_round_trip |].
  eapply I_trans; [apply I_round_trip | apply I_write].
Qed.

Lemma stable_update_returning (p : R -> bool) (f : R -> R) :
  stable I (update_returning t p f).
Proof.
  intro w. run_store. case_faults; [apply I_round_trip |].
  eapply I_trans; [apply I_round_trip | apply I_write].
Qed.

Lemma stable_insert (r : R) : stable I (insert t r).
Proof.
  intro w. run_store. case_faults; [apply I_round_trip |].
  destruct (existsb _ _); simpl; [apply I_round_trip |].
  eapply I_trans; [apply I_round_trip | apply I_write].
Qed.

Lemma stable_upsert (r : R) (f : R -> R) : stable I (upsert t r f).
Proof.
  intro w. run_store. case_faults; [apply I_round_trip |].
  destruct (existsb _ _); simpl;
    (eapply I_trans; [apply I_round_trip | apply I_write]).
Qed.
End StablePrimitives.

Lemma grows_refl (w : World) : grows w w.
Proof. exists []. now rewrite app_nil_r. Qed.

Lemma grows_trans (a b c : World) : grows a b -> grows b c -> grows a c.
Proof.
  intros [l1 H1] [l2 H2]. exists (l1 ++ l2). now rewrite H2, H1, app_assoc.
Qed.

Lemma grows_round_trip (w : World) (c : Call) :
  grows w (with_faults (tl (faults w)) (with_calls (calls w ++ [c]) w)).
Proof. now exists [c]. Qed.

Lemma keeps_refl {X : Type} (proj : World -> X) (w : World) : keeps proj w w.
Proof. reflexivity. Qed.

Lemma keeps_trans {X : Type} (proj : World -> X) (a b c : World) :
  keeps proj a b -> keeps proj b c -> keeps proj a c.
Proof. unfold keeps. congruence. Qed.

Lemma transactions_round_trip (w : World) (c : Call) :
  keeps mkt_transactions w
    (with_faults (tl (faults w)) (with_calls (calls w ++ [c]) w)).
Proof. reflexivity. Qed.

Lemma payouts_round_trip (w : World) (c : Call) :
  keeps mkt_payouts w
    (with_faults (tl (faults w)) (with_calls (calls w ++ [c]) w)).
Proof. reflexivity. Qed.

(** Steps through a handler whose pieces respect a relation. *)
Ltac stable_with refl trans rt :=
  repeat first
    [ progress unfold Sale.transferAssetToBuyer, Sale.queuePayoutIfPossible
    | apply (stable_select_single _ rt)
    | apply (stable_update _ trans rt)
    | apply (stable_update_returning _ trans rt)
    | apply (stable_insert _ trans rt)
    | apply (stable_upsert _ trans rt)
    | apply (stable_ret _ refl)
    | apply (stable_throw _ refl)
    | apply (stable_now _ refl)
    | apply (stable_bind _ trans)
    | apply (stable_try_catch _ trans)
    | solve [unfold keeps; reflexivity]
    | solve [intros; exists []; simpl; now rewrite app_nil_r]
    | match goal with
      | |- stable _ (if ?b then _ else _) => destruct b
      | |- stable _ (match ?x with _ => _ end) => destruct x
      end
    | intro ].

Lemma transfer_grows (listingId buyerId : string) :
  stable grows (Sale.transferAssetToBuyer listingId buyerId).
Proof.
  unfold Sale.transferAssetToBuyer.
  stable_with grows_refl grows_trans grows_round_trip.
Qed.

Lemma payout_grows (listingId : string) (sellerId : option string) (net : Z) :
  stable grows (Sale.queuePayoutIfPossible listingId sellerId net).
Proof.
  unfold Sale.queuePayoutIfPossible.
  stable_with grows_refl grows_trans grows_round_trip.
Qed.

Lemma transfer_keeps_transactions (listingId buyerId : string) :
  stable (keeps mkt_transactions) (Sale.transferAssetToBuyer listingId buyerId).
Proof.
  unfold Sale.transferAssetToBuyer.
  stable_with (keeps_refl mkt_transactions) (keeps_trans mkt_transactions)
              transactions_round_trip.
Qed.

Lemma payout_keeps_transactions (listingId : string) (sellerId : option string)
    (net : Z) :
  stable (keeps mkt_transactions) (Sale.queuePayoutIfPossible listingId sellerId net).
Proof.
  unfold Sale.queuePayoutIfPossible.
  stable_with (keeps_refl mkt_transactions) (keeps_trans mkt_transactions)
              transactions_round_trip.
Qed.

Lemma transfer_keeps_payouts (listingId buyerId : string) :
  stable (keeps mkt_payouts) (Sale.transferAssetToBuyer listingId buyerId).
Proof.
  unfold Sale.transferAssetToBuyer.
  stable_with (keeps_refl mkt_payouts) (keeps_trans mkt_payouts)
              payouts_round_trip.
Qed.

(** ** Settlement (C3, C4, C7) *)

Lemma retrieve_found {stripe : StripeServer} (id : string)
    (fresh : Stripe.PaymentIntent) (w : World) :
  paymentIntents_retrieve id = Some fresh ->
  retrieve id w
  = (Normal fresh, with_calls (calls w ++ [RetrievePaymentIntent id]) w).
Proof.
  intro H. unfold retrieve, bind, record_call. now rewrite H.
Qed.

Lemma retrieve_missing {stripe : StripeServer} (id : string) (w : World) :
  paymentIntents_retrieve id = None ->
  retrieve id w
  = (Thrown "No such payment_intent",
     with_calls (calls w ++ [RetrievePaymentIntent id]) w).
Proof.
  intro H. unfold retrieve, bind, record_call. now rewrite H.
Qed.

Lemma settlement_grows {stripe : StripeServer} (pi : Stripe.PaymentIntent)
    (w : World) :
  exists later,
    calls (exec (Sale.handlePaymentIntentSucceeded pi) w)
    = calls w ++ RetrievePaymentIntent (Stripe.id pi) :: later.
Proof.
  unfold Sale.handlePaymentIntentSucceeded. rewrite exec_bind. unfold result, exec at 2 3.
  destruct (paymentIntents_retrieve (Stripe.id pi)) as [fresh |] eqn:Hf.
  - rewrite (retrieve_found _ _ _ Hf). simpl.
    match goal with
    | |- context [exec ?k ?w1] => assert (Hk : stable grows k)
    end.
    { stable_with grows_refl grows_trans grows_round_trip. }
    destruct (Hk (with_calls (calls w ++ [RetrievePaymentIntent (Stripe.id pi)]) w))
      as [later Hl].
    exists later. rewrite Hl. simpl. now rewrite <- app_assoc.
  - rewrite (retrieve_missing _ _ Hf). simpl. now exists [].
Qed.

(** C3.  The settlement handler first asks the provider for the
    payment's current state: that retrieval is the first call it makes,
    whatever follows.  When the state it gets back is not "succeeded",
    or its metadata lacks a listing id or a buyer id, the handler
    returns having made no other call, and the world is the initial one
    but for the record of the retrieval: no transaction, listing, asset
    or payout is written. *)
Theorem settlement_acts_only_on_refetched_success
    {stripe : StripeServer} (pi fresh : Stripe.PaymentIntent) (w : World) :
  paymentIntents_retrieve (Stripe.id pi) = Some fresh ->
  (exists later,
     calls (exec (Sale.handlePaymentIntentSucceeded pi) w)
     = calls w ++ RetrievePaymentIntent (Stripe.id pi) :: later)
  /\
  (Stripe.status fresh <> "succeeded"
   \/ truthy (md_get "mkt_listing_id" (nullish (Stripe.metadata fresh) [])) = false
   \/ truthy (md_get "mkt_buyer_id" (nullish (Stripe.metadata fresh) [])) = false ->
   Sale.handlePaymentIntentSucceeded pi w
   = (Normal tt,
      with_calls (calls w ++ [RetrievePaymentIntent (Stripe.id pi)]) w)).
Proof.
  intro Hf. split; [apply settlement_grows |].
  intro Hguard. unfold Sale.handlePaymentIntentSucceeded, bind at 1.
  rewrite (retrieve_found _ _ _ Hf).
  destruct (String.eqb_spec (Stripe.status fresh) "succeeded") as [Hs | Hs]; simpl;
    [| reflexivity].
  destruct Hguard as [H | [H | H]]; [contradiction | |]; rewrite H; simpl;
    [| rewrite orb_true_r]; reflexivity.
Qed.

Lemma existsb_never {A : Type} (l : list A) : existsb (fun _ => false) l = false.
Proof. induction l; simpl; auto. Qed.

(** A step that leaves [proj] alone may be put in front of one whose
    effect on [proj] is [Q]. *)
Lemma kept_then {A B X : Type} (proj : World -> X) (Q : X -> X -> Prop)
    (m : M A) (k : A -> M B) :
  (forall x, Q x x) ->
  stable (keeps proj) m ->
  (forall a w, Q (proj w) (proj (exec (k a) w))) ->
  forall w, Q (proj w) (proj (exec (bind m k) w)).
Proof.
  intros HQ Hm Hk w. rewrite exec_bind. pose proof (Hm w) as E. unfold keeps in E.
  destruct (result m w).
  - rewrite <- E. apply Hk.
  - rewrite E. apply HQ.
Qed.

Lemma queue_payout_effect (listingId : string) (sellerId : option string)
    (net : Z) (w : World) :
  payout_added listingId sellerId net (mkt_payouts w)
    (mkt_payouts (exec (Sale.queuePayoutIfPossible listingId sellerId net) w)).
Proof.
  unfold Sale.queuePayoutIfPossible, payout_added.
  destruct (truthy sellerId) eqn:Hs; simpl; [| now left].
  destruct (Z.eqb_spec net 0) as [H0 | H0]; simpl; [now left |].
  destruct (Z.leb_spec net 0) as [Hle | Hlt]; simpl; [now left |].
  run_store. case_faults; [now left |].
  destruct (filter _ _) as [| seller [| other l]]; simpl; try now left.
  destruct (truthy (Profile.stripe_account_id seller)); simpl; [| now left].
  case_faults; [now left |].
  rewrite existsb_never. simpl. right. eexists. repeat split; auto.
Qed.

Lemma settlement_payout {stripe : StripeServer} (pi fresh : Stripe.PaymentIntent)
    (w : World) :
  paymentIntents_retrieve (Stripe.id pi) = Some fresh ->
  let md := nullish (Stripe.metadata fresh) [] in
  payout_added (nullish (md_get "mkt_listing_id" md) "")
    (md_get "mkt_seller_id" md) (Sale.netCents fresh)
    (mkt_payouts w)
    (mkt_payouts (exec (Sale.handlePaymentIntentSucceeded pi) w)).
Proof.
  intros Hf md.
  set (Q := payout_added (nullish (md_get "mkt_listing_id" md) "")
              (md_get "mkt_seller_id" md) (Sale.netCents fresh)).
  assert (HQ : forall x, Q x x) by (intro; now left).
  unfold Sale.handlePaymentIntentSucceeded.
  rewrite exec_bind. unfold result, exec at 2 3. rewrite (retrieve_found _ _ _ Hf).
  cbv beta iota zeta. unfold fst, snd. fold md.
  change (mkt_payouts w) with
    (mkt_payouts (with_calls (calls w ++ [RetrievePaymentIntent (Stripe.id pi)]) w)).
  generalize (with_calls (calls w ++ [RetrievePaymentIntent (Stripe.id pi)]) w).
  intro w1.
  destruct (negb _); [apply HQ |].
  destruct (_ || _); [apply HQ |].
  repeat (apply kept_then;
          [ exact HQ
          | stable_with (keeps_refl mkt_payouts) (keeps_trans mkt_payouts)
                        payouts_round_trip
          | intros ]).
  apply queue_payout_effect.
Qed.

(** C4.  The net amount of a settled payment is
    [max(0, captured - fee)], hence never negative.  The settlement
    adds at most one payout row; a row it adds carries exactly that
    net amount, which is then positive, and a seller id was present.
    So when the net amount is not positive, or the seller id is absent,
    the payouts are as before. *)
Theorem payout_amount_is_clamped_net
    {stripe : StripeServer} (pi fresh : Stripe.PaymentIntent) (w : World) :
  paymentIntents_retrieve (Stripe.id pi) = Some fresh ->
  let a := Sale.amountCents fresh in
  let f := Sale.platformFeeCents fresh in
  let sellerId := md_get "mkt_seller_id" (nullish (Stripe.metadata fresh) []) in
  let w' := exec (Sale.handlePaymentIntentSucceeded pi) w in
  Sale.netCents fresh = Z.max 0 (a - f)
  /\ 0 <= Sale.netCents fresh
  /\ (mkt_payouts w' = mkt_payouts w \/
      exists row,
        mkt_payouts w' = mkt_payouts w ++ [row] /\
        Payout.amount_cents row = Z.max 0 (a - f) /\
        0 < Payout.amount_cents row)
  /\ (a - f <= 0 \/ truthy sellerId = false -> mkt_payouts w' = mkt_payouts w).
Proof.
  intros Hf a f sellerId w'.
  pose proof (settlement_payout pi fresh w Hf) as H. simpl in H.
  fold sellerId w' in H. unfold payout_added in H.
  assert (Hnet : Sale.netCents fresh = Z.max 0 (a - f)) by reflexivity.
  repeat split.
  - rewrite Hnet. apply Z.le_max_l.
  - destruct H as [H | (row & Hrow & Hamt & Hpos & _)]; [now left |].
    right. exists row. rewrite Hamt, <- Hnet. repeat split; auto.
  - intros Hno. destruct H as [H | (row & _ & _ & Hpos & Hseller & _)]; [exact H |].
    exfalso. destruct Hno as [Hle | Hs]; [| congruence].
    rewrite Hnet in Hpos. lia.
Qed.


Arguments Sale.transferAssetToBuyer : simpl never.
Arguments Sale.queuePayoutIfPossible : simpl never.

Lemma listing_update_trace (p : Listing.t -> bool) (f : Listing.t -> Listing.t)
    (w : World) :
  calls (exec (update listings_table p f) w) = calls w ++ [From "mkt_listings" Update]
  /\ exists reply, result (update listings_table p f) w = Normal reply.
Proof.
  run_store. case_faults; split; eauto.
Qed.



(** ** Account readiness (C8) *)

Lemma in_amend {R : Type} (p : R -> bool) (f : R -> R) (l : list R) (r' : R) :
  In r' (amend p f l) ->
  (In r' l /\ p r' = false) \/ exists r, In r l /\ p r = true /\ r' = f r.
Proof.
  unfold amend. rewrite in_map_iff. intros (r & <- & Hin).
  destruct (p r) eqn:Hp; [right; eauto | left; auto].
Qed.

Lemma amend_in {R : Type} (p : R -> bool) (f : R -> R) (l : list R) (r : R) :
  In r l -> In (if p r then f r else r) (amend p f l).
Proof.
  intro H. unfold amend. apply in_map_iff. eauto.
Qed.

Ltac in_rows :=
  repeat match goal with
         | H : In _ (amend _ _ _) |- _ =>
             apply in_amend in H; destruct H as [[H ?] | (? & H & ? & ->)]
         | H : In _ (_ ++ [_]) |- _ =>
             apply in_app_or in H; destruct H as [H | [<- | []]]
         end;
  simpl; auto.

Lemma verified_formula (acct : Stripe.Account) :
  Sale.verified acct
  = Stripe.charges_enabled acct && Stripe.payouts_enabled acct
    && match Stripe.requirements acct with
       | Some (Some (_ :: _)) => false
       | _ => true
       end.
Proof.
  unfold Sale.verified.
  destruct (Stripe.charges_enabled acct), (Stripe.payouts_enabled acct),
    (Stripe.requirements acct) as [[[| d l] |] |]; reflexivity.
Qed.

Lemma readiness_rows (acct : Stripe.Account) (w : World) (r' : Profile.t) :
  In r' (mkt_profiles (exec (Sale.markSellerReadiness acct) w)) ->
  In r' (mkt_profiles w) \/
  (Profile.stripe_verified r' = Some (Sale.verified acct) /\
   Profile.is_seller r' = Some (Sale.verified acct)).
Proof.
  unfold Sale.markSellerReadiness.
  destruct (truthy _) eqn:Hu; run_store;
    repeat (case_faults; try case_clash);
    intro H; in_rows.
Qed.

(** C8.  The flag computed for an account is [charges_enabled] and
    [payouts_enabled] and an empty (or missing) list of currently due
    requirements.  Every profile row found after the handler is either
    a row that was there before, untouched, or carries that flag in
    both [stripe_verified] and [is_seller]; so no write of the handler
    puts any other value in them.  When the store answers, the row
    keyed by the metadata user id exists with the account id and the
    flag, and every row with the account id carries the flag. *)
Theorem seller_flags_equal_computed_readiness
    (acct : Stripe.Account) (w : World) :
  let v :=
    Stripe.charges_enabled acct && Stripe.payouts_enabled acct
    && match Stripe.requirements acct with
       | Some (Some (_ :: _)) => false
       | _ => true
       end in
  let w' := exec (Sale.markSellerReadiness acct) w in
  Sale.verified acct = v
  /\
  (forall r', In r' (mkt_profiles w') ->
     In r' (mkt_profiles w) \/
     (Profile.stripe_verified r' = Some v /\ Profile.is_seller r' = Some v))
  /\
  (faults w = [] ->
   (forall u,
      (match Stripe.metadata acct with
       | Some md => md_get "user_id" md
       | None => None
       end) = Some u ->
      u <> "" ->
      exists r', In r' (mkt_profiles w') /\ Profile.id r' = u /\
                 Profile.stripe_account_id r' = Some (Stripe.id acct) /\
                 Profile.stripe_verified r' = Some v /\
                 Profile.is_seller r' = Some v)
   /\
   (forall r', In r' (mkt_profiles w') ->
      Profile.stripe_account_id r' = Some (Stripe.id acct) ->
      Profile.stripe_verified r' = Some v /\ Profile.is_seller r' = Some v)).
Proof.
  intros v w'.
  assert (Hv : Sale.verified acct = v) by (subst v; apply verified_formula).
  clearbody v. subst v.
  split; [reflexivity |]. split; [intros r'; apply readiness_rows |].
  intro Hfl. subst w'. unfold Sale.markSellerReadiness. split.
  - intros u Hu Hne. apply String.eqb_neq in Hne. rewrite Hu. simpl. rewrite Hne.
    simpl. run_store. rewrite Hfl. simpl.
    destruct (existsb _ _) eqn:Hex; simpl.
    + apply existsb_exists in Hex. destruct Hex as (r & Hin & Hid).
      apply (amend_in (fun b => (u =? Profile.id b)%string)
               (fun r => {| Profile.id := Profile.id r; Profile.email := None;
                            Profile.stripe_account_id := Some (Stripe.id acct);
                            Profile.stripe_verified := Some (Sale.verified acct);
                            Profile.is_seller := Some (Sale.verified acct);
                            Profile.credits := Profile.credits r |})) in Hin.
      rewrite Hid in Hin.
      eapply amend_in in Hin. eexists. split; [exact Hin |].
      simpl. rewrite String.eqb_refl. simpl. apply String.eqb_eq in Hid.
      repeat split; auto.
    + eexists. split.
      * eapply (amend_in _ _ (_ ++ [_])). apply in_or_app. right. left. reflexivity.
      * simpl. rewrite String.eqb_refl. simpl. repeat split; auto.
  - intros r'. destruct (truthy _); run_store; rewrite Hfl; simpl;
      try destruct (existsb _ _); simpl; intros H Hacct;
      apply in_amend in H;
      destruct H as [[_ Hp] | (r & _ & _ & ->)]; simpl; auto;
      rewrite Hacct in Hp; simpl in Hp; rewrite String.eqb_refl in Hp;
      discriminate.
Qed.

(** ** Credit grants (C1, C10) *)

Lemma grant_enters (env : ProcessEnv) (session : Stripe.Session) (u : string)
    (c : Z) :
  store_configured env -> credits_purchase session u c ->
  Credits.grantCredits env session =
  (ledger <- insert ledger_table (purchase_row session u c) ;;
   if other_than "23505" (error ledger) then ret tt else
   read <- select_single profiles_table (fun r => (Profile.id r =? u)%string) ;;
   if other_than "PGRST116" (error read) then ret tt else
   let current :=
     nullish (match data read with
              | Some prof => Profile.credits prof
              | None => None
              end) 0 in
   upsert profiles_table (Credits.balance_row u (current + c))
     (Credits.set_balance u (current + c)) ;;
   ret tt).
Proof.
  intros [Hurl Hkey] (Hkind & Hu & Hne & Hc & Hpos & Hpi).
  unfold Credits.grantCredits, Credits.admin. cbv zeta.
  rewrite Hurl, Hkey, Hkind, Hu, Hc. simpl.
  apply String.eqb_neq in Hne, Hpi. rewrite Hne, Hpi.
  destruct (Z.eqb_spec c 0); [lia |]. destruct (Z.leb_spec c 0); [lia |].
  reflexivity.
Qed.



(** *** One run against a store that answers *)

Lemma find_is_first_match {R : Type} (p : R -> bool) (l : list R) :
  find p l = hd_error (filter p l).
Proof.
  induction l as [| r l IH]; simpl; [reflexivity |]. now destruct (p r).
Qed.

Lemma clash_iff_match {R : Type} (p q : R -> bool) (l : list R) :
  (forall r, q r = p r) ->
  existsb q l = match filter p l with [] => false | _ :: _ => true end.
Proof.
  intro Hq. induction l as [| r l IH]; simpl; [reflexivity |].
  rewrite Hq. destruct (p r); simpl; auto.
Qed.

Lemma filter_amend {R : Type} (p q : R -> bool) (f : R -> R) (l : list R) :
  (forall r, q r = p r) ->
  (forall r, p r = true -> p (f r) = true) ->
  filter p (amend q f l) = map f (filter p l).
Proof.
  intros Hq Hf. induction l as [| r l IH]; simpl; [reflexivity |].
  rewrite Hq. destruct (p r) eqn:Hp.
  - rewrite (Hf r Hp). simpl. now rewrite IH.
  - rewrite Hp. exact IH.
Qed.

Lemma world_ext (a b : World) :
  mkt_profiles a = mkt_profiles b -> mkt_listings a = mkt_listings b ->
  mkt_transactions a = mkt_transactions b -> user_assets a = user_assets b ->
  mkt_payouts a = mkt_payouts b -> credits_ledger a = credits_ledger b ->
  faults a = faults b -> calls a = calls b -> clock a = clock b ->
  a = b.
Proof.
  destruct a, b; simpl; intros; subst; reflexivity.
Qed.

Lemma grant_run (env : ProcessEnv) (session : Stripe.Session) (u : string)
    (c : Z) (w : World) :
  store_configured env -> credits_purchase session u c -> faults w = [] ->
  let sel := fun r => (Profile.id r =? u)%string in
  let current :=
    match filter sel (mkt_profiles w) with
    | [r] => nullish (Profile.credits r) 0
    | _ => 0
    end in
  Credits.grantCredits env session w =
  (Normal tt,
   {| mkt_profiles :=
        if existsb (fun b => (u =? Profile.id b)%string) (mkt_profiles w)
        then amend (fun b => (u =? Profile.id b)%string)
               (Credits.set_balance u (current + c)) (mkt_profiles w)
        else mkt_profiles w ++ [Credits.balance_row u (current + c)];
      mkt_listings := mkt_listings w;
      mkt_transactions := mkt_transactions w;
      user_assets := user_assets w;
      mkt_payouts := mkt_payouts w;
      credits_ledger :=
        if existsb (fun b => (Credits.piId session =? Ledger.payment_intent b)%string)
             (credits_ledger w)
        then credits_ledger w
        else credits_ledger w ++ [purchase_row session u c];
      faults := [];
      calls := calls w ++ [From "credits_ledger" Insert;
                           From "mkt_profiles" Select;
                           From "mkt_profiles" Upsert];
      clock := clock w |}).
Proof.
  intros Hcfg Hp Hfl sel current. subst current sel.
  rewrite (grant_enters env session u c Hcfg Hp).
  unfold exec, result, insert, upsert, select_single, round_trip, bind, ret.
  rewrite Hfl. cbn.
  destruct (existsb _ (credits_ledger w)); cbn;
    (destruct (filter _ (mkt_profiles w)) as [| r [| r2 l]]; cbn;
     destruct (existsb _ (mkt_profiles w)); cbn;
     f_equal; apply world_ext; cbn; rewrite <- ?app_assoc; reflexivity).
Qed.

Lemma grant_step (env : ProcessEnv) (session : Stripe.Session) (u : string)
    (c : Z) (w : World) :
  store_configured env -> credits_purchase session u c -> faults w = [] ->
  (List.length (filter (fun r => (Profile.id r =? u)%string) (mkt_profiles w)) <= 1)%nat ->
  let w1 := exec (Credits.grantCredits env session) w in
  result (Credits.grantCredits env session) w = Normal tt
  /\ faults w1 = []
  /\ calls w1 = calls w ++ [From "credits_ledger" Insert;
                            From "mkt_profiles" Select;
                            From "mkt_profiles" Upsert]
  /\ credits_ledger w1
     = (if existsb (fun b => (Credits.piId session =? Ledger.payment_intent b)%string)
             (credits_ledger w)
        then credits_ledger w
        else credits_ledger w ++ [purchase_row session u c])
  /\ balance u w1 = balance u w + c
  /\ (List.length (filter (fun r => (Profile.id r =? u)%string) (mkt_profiles w1)) <= 1)%nat.
Proof.
  intros Hcfg Hp Hfl Hone w1. subst w1. unfold exec, result.
  rewrite (grant_run env session u c w Hcfg Hp Hfl). cbn [fst snd].
  repeat (split; [reflexivity |]).
  unfold balance. rewrite !find_is_first_match. cbn [mkt_profiles].
  set (sel := fun r => (Profile.id r =? u)%string) in *.
  set (clash := fun b => (u =? Profile.id b)%string).
  assert (Hq : forall r, clash r = sel r) by (intro; apply String.eqb_sym).
  rewrite (clash_iff_match sel clash _ Hq).
  destruct (filter sel (mkt_profiles w)) as [| r [| r2 l]] eqn:Hsel.
  - rewrite filter_app, Hsel. cbn. rewrite String.eqb_refl. cbn. split; [lia | lia].
  - rewrite (filter_amend sel clash); [| exact Hq |].
    + rewrite Hsel. cbn. split; [lia | lia].
    + intros r0 _. unfold sel. cbn. apply String.eqb_refl.
  - cbn in Hone. lia.
Qed.



(** * The properties on the fixtures *)



(** C3 on a payment the provider reports as processing. *)
Lemma settlement_guard_witness :
  @paymentIntents_retrieve processing_stripe (Stripe.id processing_intent)
  = Some processing_intent
  /\ Stripe.status processing_intent <> "succeeded"
  /\ Sale.handlePaymentIntentSucceeded (stripe := processing_stripe)
       processing_intent sale_world
     = (Normal tt,
        with_calls (calls sale_world ++ [RetrievePaymentIntent "pi_7"]) sale_world).
Proof.
  assert (Hs : Stripe.status processing_intent <> "succeeded") by discriminate.
  split; [reflexivity |]. split; [exact Hs |].
  apply (proj2 (settlement_acts_only_on_refetched_success
                  (stripe := processing_stripe)
                  processing_intent processing_intent sale_world eq_refl)).
  left. exact Hs.
Defined.

(** C4 on the sale scenario: captured 1000, fee 100. *)
Lemma payout_witness :
  @paymentIntents_retrieve sale_stripe (Stripe.id sale_intent) = Some sale_intent
  /\ Sale.netCents sale_intent = Z.max 0 (1000 - 100).
Proof.
  split; [reflexivity |].
  apply (proj1 (payout_amount_is_clamped_net (stripe := sale_stripe)
                  sale_intent sale_intent sale_world eq_refl)).
Defined.

(** C6 on an event of type [customer.created]. *)
Lemma unrecognised_event_witness :
  ~ In (Stripe.type customer_created) sale_event_types
  /\ Stripe.type customer_created <> "checkout.session.completed"
  /\ Sale.POST (stripe := lenient_stripe customer_created) test_env
       (signed_request "t=1,v1=0") sale_world
     = (Normal received_true,
        with_calls (calls sale_world ++ [ConstructEvent "whsec_a"]) sale_world)
  /\ Credits.serve (stripe := lenient_stripe customer_created) test_env
       (signed_request "t=1,v1=0") sale_world
     = (Normal received_true,
        with_calls (calls sale_world ++ [ConstructEvent "whsec_c"]) sale_world).
Proof.
  assert (H1 : ~ In (Stripe.type customer_created) sale_event_types)
    by (simpl; intuition discriminate).
  assert (H2 : Stripe.type customer_created <> "checkout.session.completed")
    by discriminate.
  pose proof (unrecognised_event_is_acknowledged_untouched
                (stripe := lenient_stripe customer_created) test_env
                (signed_request "t=1,v1=0") sale_world customer_created)
    as [Hs Hc].
  split; [exact H1 |]. split; [exact H2 |]. split.
  - exact (Hs eq_refl H1).
  - exact (Hc eq_refl H2).
Defined.


(** C8 on an onboarded account: the flag is [true]. *)
Lemma readiness_witness :
  faults sale_world = []
  /\ Sale.verified ready_account = true
  /\ exists r',
       In r' (mkt_profiles (exec (Sale.markSellerReadiness ready_account) sale_world))
       /\ Profile.id r' = "U3"
       /\ Profile.stripe_account_id r' = Some "acct_3"
       /\ Profile.stripe_verified r' = Some true
       /\ Profile.is_seller r' = Some true.
Proof.
  assert (HU : "U3" <> "") by discriminate.
  pose proof (seller_flags_equal_computed_readiness ready_account sale_world)
    as (Hv & _ & Hw).
  split; [reflexivity |]. split; [exact Hv |].
  exact (proj1 (Hw eq_refl) "U3" eq_refl HU).
Defined.



(** * The scenarios of the specification, run *)

(** Settlement of [L1] for buyer [U2], seller [U3], captured 1000 with
    a fee of 100: the pending transaction is completed and receives
    the payment id, the listing is sold to [U2], the asset changes
    owner, and a payout of 900 is queued ten minutes ahead. *)
Example settlement_scenario :
  let after :=
    exec (Sale.POST (stripe := sale_stripe) test_env (signed_request "whsec_a"))
      sale_world in
  map (fun tx => (Transaction.status tx, Transaction.stripe_payment_id tx))
    (mkt_transactions after) = [("completed", Some "pi_9")]
  /\ map (fun l => (Listing.status l, Listing.buyer_id l, Listing.is_active l))
       (mkt_listings after) = [("sold", Some "U2", false)]
  /\ map Asset.owner_id (user_assets after) = ["U2"]
  /\ map (fun p => (Payout.stripe_account_id p, Payout.amount_cents p,
                    Payout.scheduled_at p - clock sale_world, Payout.status p))
       (mkt_payouts after) = [("acct_3", 900, 600000, "pending")].
Proof. repeat split; reflexivity. Qed.

(** A failure reported for [L1] and [U2] while [U2] holds the listing
    releases it; reported for another buyer, it changes no listing. *)
Example reversal_scenario :
  map (fun l => (Listing.status l, Listing.buyer_id l, Listing.is_active l))
    (mkt_listings (exec (Sale.handlePaymentIntentFailed sale_intent) sale_world))
  = [("active", None, true)]
  /\ mkt_listings
       (exec (Sale.markTxFailed "pi_9" (Some "L1") (Some "U9")) sale_world)
     = mkt_listings sale_world.
Proof. split; reflexivity. Qed.

(** An account with a requirement currently due is not verified. *)
Example readiness_scenario :
  Sale.verified ready_account = true
  /\ Sale.verified
       {| Stripe.id := "acct_3"; Stripe.status := ""; Stripe.metadata := None;
          Stripe.amount := 0; Stripe.amount_received := None;
          Stripe.application_fee_amount := None;
          Stripe.payment_intent := Stripe.Absent; Stripe.amount_total := None;
          Stripe.charges_enabled := true; Stripe.payouts_enabled := true;
          Stripe.requirements := Some (Some ["external_account"]) |} = false.
Proof. split; reflexivity. Qed.

(** The replayed checkout of 50 credits, delivered through the route:
    one ledger row, and a balance of 100. *)
Example replay_scenario :
  let deliver :=
    Credits.serve (stripe := credits_stripe) test_env (signed_request "whsec_c") in
  let after := exec (deliver ;; deliver) empty_world in
  map Ledger.payment_intent (credits_ledger after) = ["pi_1"]
  /\ balance "U1" after = 100.
Proof. split; reflexivity. Qed.

(** [parseInt] on the shapes a credit count may take. *)
Example parseInt_shapes :
  parseInt "50" = Some 50 /\ parseInt " 12abc" = Some 12
  /\ parseInt "-3" = Some (-3) /\ parseInt "abc" = None /\ parseInt "" = None.
Proof. repeat split; reflexivity. Qed.

(** * Further properties of the handlers *)

(** ** The routes always answer *)



(** ** Guards of the credit grant *)

(** X2.  Without the store credentials ([SUPABASE_URL] or its public
    fallback, and [SUPABASE_SERVICE_KEY]) the grant handler throws
    before anything else: whatever the session, no call is made and
    the world is untouched.  The route still acknowledges the event. *)
Theorem grant_without_store_credentials_throws_first
    {stripe : StripeServer} (env : ProcessEnv) (session : Stripe.Session)
    (req : Request) (w : World) :
  truthy (or_else (SUPABASE_URL env) (NEXT_PUBLIC_SUPABASE_URL env)) = false
  \/ truthy (SUPABASE_SERVICE_KEY env) = false ->
  Credits.grantCredits env session w
  = (Thrown "Missing SUPABASE_URL / SUPABASE_SERVICE_KEY", w)
  /\
  let tried :=
    try_in_order (arrayBuffer req) (nullish (stripe_signature req) "")
      (configured (STRIPE_CREDITS_WEBHOOK_SECRET env)
                  (STRIPE_CREDITS_CONNECT_SECRET env)) in
  (snd tried
   = Some {| Stripe.type := "checkout.session.completed";
             Stripe.data_object := session |} ->
   Credits.serve env req w
   = (Normal received_true, with_calls (calls w ++ fst tried) w)).
Proof.
  intro Hmiss.
  assert (Hthrow : forall w0, Credits.grantCredits env session w0
                   = (Thrown "Missing SUPABASE_URL / SUPABASE_SERVICE_KEY", w0)).
  { intro w0. unfold Credits.grantCredits, Credits.admin, bind.
    destruct Hmiss as [H | H]; rewrite H; [| rewrite orb_true_r]; reflexivity. }
  split; [apply Hthrow |].
  intros tried Hv. rewrite credits_serve_cases. fold tried.
  destruct (configured _ _) eqn:Hs; [subst tried; simpl in Hv; discriminate |].
  rewrite Hv. cbn [Stripe.type Stripe.data_object String.eqb Ascii.eqb Bool.eqb].
  unfold bind, try_catch. rewrite Hthrow. reflexivity.
Qed.


(** X4.  When the ledger insert fails with any code other than the
    uniqueness conflict, the grant stops there: the insert is the only
    call made, and neither the ledger nor any profile changes. *)
Theorem grant_stops_on_other_ledger_error
    (env : ProcessEnv) (session : Stripe.Session) (u : string) (c : Z)
    (e : PgError) (w : World) :
  store_configured env ->
  credits_purchase session u c ->
  hd None (faults w) = Some e ->
  code e <> "23505" ->
  let w' := exec (Credits.grantCredits env session) w in
  calls w' = calls w ++ [From "credits_ledger" Insert]
  /\ credits_ledger w' = credits_ledger w
  /\ mkt_profiles w' = mkt_profiles w.
Proof.
  intros Hcfg Hp Hf He w'. subst w'.
  rewrite (grant_enters env session u c Hcfg Hp).
  unfold exec, insert, round_trip, bind, ret. rewrite Hf. cbn.
  apply String.eqb_neq in He. rewrite He. cbn. repeat split.
Qed.

(** ** What a grant writes *)

Lemma set_balance_rowwise (u : string) (n : Z) (l : list Profile.t) :
  Forall2
    (fun r r' =>
       (Profile.id r <> u -> r' = r)
       /\ Profile.id r' = Profile.id r
       /\ Profile.email r' = Profile.email r
       /\ Profile.stripe_account_id r' = Profile.stripe_account_id r
       /\ Profile.stripe_verified r' = Profile.stripe_verified r
       /\ Profile.is_seller r' = Profile.is_seller r)
    l (amend (fun b => (u =? Profile.id b)%string) (Credits.set_balance u n) l).
Proof.
  eapply rowwise_weaken; [| apply amend_rowwise].
  intros r r' ->. cbn beta.
  destruct (String.eqb_spec u (Profile.id r)) as [E | E]; cbn.
  - repeat split; auto. congruence.
  - repeat split.
Qed.

(** X5.  Whatever the store does, a grant for user [u] writes nothing
    in the profiles but the balance of [u]: every row that was there
    is still there in its place, rows of other users are identical,
    and a row of [u] keeps its id, email, account id and seller flags.
    At most one row is added, a fresh row for [u], and only when [u]
    had none. *)
Theorem grant_writes_only_the_balance_of_its_user
    (env : ProcessEnv) (session : Stripe.Session) (u : string) (c : Z)
    (w : World) :
  store_configured env ->
  credits_purchase session u c ->
  let w' := exec (Credits.grantCredits env session) w in
  exists kept added,
    mkt_profiles w' = kept ++ added
    /\ Forall2
         (fun r r' =>
            (Profile.id r <> u -> r' = r)
            /\ Profile.id r' = Profile.id r
            /\ Profile.email r' = Profile.email r
            /\ Profile.stripe_account_id r' = Profile.stripe_account_id r
            /\ Profile.stripe_verified r' = Profile.stripe_verified r
            /\ Profile.is_seller r' = Profile.is_seller r)
         (mkt_profiles w) kept
    /\ (added = []
        \/ (exists n, added = [Credits.balance_row u n])
           /\ filter (fun r => (Profile.id r =? u)%string) (mkt_profiles w) = []).
Proof.
  intros Hcfg Hp w'. subst w'.
  rewrite (grant_enters env session u c Hcfg Hp).
  match goal with
  | |- exists kept added, mkt_profiles ?x = _ /\ _ =>
      pattern (mkt_profiles x);
      match goal with |- ?P _ => set (Q := P) end
  end.
  assert (H0 : Q (mkt_profiles w)).
  { exists (mkt_profiles w), []. rewrite app_nil_r. split; [reflexivity |].
    split; [| now left]. apply rowwise_same. intro r. repeat split. }
  assert (H1 : forall n,
            Q (amend (fun b => (u =? Profile.id b)%string)
                 (Credits.set_balance u n) (mkt_profiles w))).
  { intro n. eexists. exists []. rewrite app_nil_r. split; [reflexivity |].
    split; [apply set_balance_rowwise | now left]. }
  assert (H2 : forall n,
            existsb (fun b => (u =? Profile.id b)%string) (mkt_profiles w) = false ->
            Q (mkt_profiles w ++ [Credits.balance_row u n])).
  { intros n Hex. eexists. eexists. split; [reflexivity |].
    split; [apply rowwise_same; intro; repeat split |].
    right. split; [eexists; reflexivity |].
    rewrite (clash_iff_match (fun r => (Profile.id r =? u)%string)
               (fun b => (u =? Profile.id b)%string)) in Hex
      by (intro; apply String.eqb_sym).
    destruct (filter _ (mkt_profiles w)); [reflexivity | discriminate]. }
  clearbody Q.
  unfold exec, insert, select_single, upsert, round_trip, bind, ret.
  destruct (hd None (faults w)) as [e1 |]; cbn;
    [destruct (negb (code e1 =? "23505")%string); cbn; [exact H0 |]
    | destruct (existsb _ (credits_ledger w)); cbn].
  all: destruct (hd None (tl (faults w))) as [e2 |]; cbn;
    [destruct (negb (code e2 =? "PGRST116")%string); cbn; [exact H0 |]
    | destruct (filter _ (mkt_profiles w)) as [| r0 [| r1 l]]; cbn].
  all: destruct (hd None (tl (tl (faults w)))) as [e3 |]; cbn; [exact H0 |].
  all: destruct (existsb (fun b => (u =? Profile.id b)%string) (mkt_profiles w))
         ; cbn; [apply H1 | apply H2; reflexivity].
Qed.

(** ** A delivery whose balance write failed, then replayed *)

Lemma grant_run_upsert_refused (env : ProcessEnv) (session : Stripe.Session)
    (u : string) (c : Z) (e : PgError) (w : World) :
  store_configured env -> credits_purchase session u c ->
  faults w = [None; None; Some e] ->
  ledger_rows_for (Credits.piId session) w = [] ->
  let w1 := exec (Credits.grantCredits env session) w in
  result (Credits.grantCredits env session) w = Normal tt
  /\ faults w1 = []
  /\ mkt_profiles w1 = mkt_profiles w
  /\ credits_ledger w1 = credits_ledger w ++ [purchase_row session u c].
Proof.
  intros Hcfg Hp Hfl Hnew w1. subst w1.
  rewrite (grant_enters env session u c Hcfg Hp).
  unfold exec, result, insert, select_single, upsert, round_trip, bind, ret.
  rewrite Hfl. cbn.
  unfold ledger_rows_for in Hnew.
  rewrite (clash_iff_match
             (fun r => (Ledger.payment_intent r =? Credits.piId session)%string)
             (fun b => (Credits.piId session =? Ledger.payment_intent b)%string))
    by (intro; apply String.eqb_sym).
  rewrite Hnew. cbn.
  destruct (filter _ (mkt_profiles w)) as [| r0 [| r1 l]]; cbn; repeat split.
Qed.

(** X6.  The first delivery inserts the ledger row but its balance
    upsert is refused by the store; the session is delivered again and
    this time every call is answered.  The second delivery, whose
    ledger insert is refused as a duplicate, goes on to the balance:
    in the end the ledger holds one row for the reference and the
    balance has grown by the credit count once, although it had not
    moved after the first delivery. *)
Theorem replay_completes_a_grant_whose_balance_write_failed
    (env : ProcessEnv) (session : Stripe.Session) (u : string) (c : Z)
    (e : PgError) (w : World) :
  store_configured env ->
  credits_purchase session u c ->
  faults w = [None; None; Some e] ->
  ledger_rows_for (Credits.piId session) w = [] ->
  (List.length (filter (fun r => (Profile.id r =? u)%string) (mkt_profiles w)) <= 1)%nat ->
  let w1 := exec (Credits.grantCredits env session) w in
  let w2 := exec (delivered_twice env session) w in
  balance u w1 = balance u w
  /\ ledger_rows_for (Credits.piId session) w1 = [purchase_row session u c]
  /\ balance u w2 = balance u w + c
  /\ ledger_rows_for (Credits.piId session) w2 = [purchase_row session u c].
Proof.
  intros Hcfg Hp Hfl Hnew Hone w1 w2.
  destruct (grant_run_upsert_refused env session u c e w Hcfg Hp Hfl Hnew)
    as (Hr1 & Hf1 & Hp1 & Hl1).
  fold w1 in Hf1, Hp1, Hl1.
  assert (Hone1 : (List.length (filter (fun r => (Profile.id r =? u)%string)
                                  (mkt_profiles w1)) <= 1)%nat)
    by (rewrite Hp1; exact Hone).
  destruct (grant_step env session u c w1 Hcfg Hp Hf1 Hone1)
    as (_ & _ & _ & Hl2 & Hb2 & _).
  assert (Ew2 : w2 = exec (Credits.grantCredits env session) w1).
  { subst w2. unfold delivered_twice. rewrite exec_bind, Hr1. reflexivity. }
  rewrite <- Ew2 in Hl2, Hb2.
  assert (Hb1 : balance u w1 = balance u w) by (unfold balance; now rewrite Hp1).
  assert (Hrows1 : ledger_rows_for (Credits.piId session) w1
                   = [purchase_row session u c]).
  { unfold ledger_rows_for in *. rewrite Hl1, filter_app, Hnew. cbn.
    now rewrite String.eqb_refl. }
  assert (Hdup : existsb
                   (fun b => (Credits.piId session =? Ledger.payment_intent b)%string)
                   (credits_ledger w1) = true).
  { rewrite Hl1, existsb_app. cbn. now rewrite String.eqb_refl, !orb_true_r. }
  rewrite Hdup in Hl2.
  repeat split.
  - exact Hb1.
  - exact Hrows1.
  - rewrite Hb2, Hb1. reflexivity.
  - unfold ledger_rows_for in *. rewrite Hl2. exact Hrows1.
Qed.

(** ** Ownership transfer *)

(** X7.  When the listing cannot be read as a single row (the select
    is refused, or no row or several rows carry the id), the transfer
    gives up after that one select: its result is normal and nothing
    in the store has changed. *)
Theorem transfer_without_a_single_listing_changes_nothing
    (listingId buyerId : string) (w : World) :
  hd None (faults w) <> None
  \/ List.length (filter (fun l => (Listing.id l =? listingId)%string)
                    (mkt_listings w)) <> 1%nat ->
  Sale.transferAssetToBuyer listingId buyerId w
  = (Normal tt,
     with_faults (tl (faults w))
       (with_calls (calls w ++ [From "mkt_listings" Select]) w)).
Proof.
  intro H. unfold Sale.transferAssetToBuyer, select_single, round_trip, bind, ret.
  destruct (hd None (faults w)) as [e |]; cbn; [reflexivity |].
  destruct H as [H | H]; [congruence |].
  destruct (filter _ (mkt_listings w)) as [| l0 [| l1 l]]; cbn in *;
    [reflexivity | congruence | reflexivity].
Qed.

(** X8.  A transfer changes nothing but owners, and only to the buyer:
    whatever the store does, every asset row is afterwards either as
    it was or the same row owned by the buyer, and listings,
    transactions, profiles, payouts and the ledger are as they were.
    When the listing is found and the store answers, the rows that
    change hands are exactly the asset whose id is the listing's
    [source_id] for a listing of type "asset", and otherwise the
    assets of type "uploaded_image" with that [source_id]. *)
Theorem transfer_only_reassigns_the_listed_asset
    (listingId buyerId : string) (w : World) :
  let w' := exec (Sale.transferAssetToBuyer listingId buyerId) w in
  Forall2 (fun a a' => a' = a \/ a' = Sale.set_owner buyerId a)
    (user_assets w) (user_assets w')
  /\ mkt_listings w' = mkt_listings w
  /\ mkt_transactions w' = mkt_transactions w
  /\ mkt_profiles w' = mkt_profiles w
  /\ mkt_payouts w' = mkt_payouts w
  /\ credits_ledger w' = credits_ledger w
  /\ (forall listing,
        faults w = [] ->
        filter (fun l => (Listing.id l =? listingId)%string) (mkt_listings w)
        = [listing] ->
        Forall2
          (fun a a' =>
             a' = if (if (Listing.source_type listing =? "asset")%string
                      then (Asset.id a =? Listing.source_id listing)%string
                      else (Asset.source_type a =? "uploaded_image")%string
                           && (Asset.source_id a =? Listing.source_id listing)%string)
                  then Sale.set_owner buyerId a else a)
          (user_assets w) (user_assets w')).
Proof.
  assert (Hor : forall p,
            Forall2 (fun a a' => a' = a \/ a' = Sale.set_owner buyerId a)
              (user_assets w) (amend p (Sale.set_owner buyerId) (user_assets w))).
  { intro p. eapply rowwise_weaken; [| apply amend_rowwise].
    intros a a' ->. destruct (p a); auto. }
  assert (Hid : Forall2 (fun a a' => a' = a \/ a' = Sale.set_owner buyerId a)
                  (user_assets w) (user_assets w))
    by (apply rowwise_same; auto).
  cbv zeta. unfold Sale.transferAssetToBuyer, exec, select_single, update,
    round_trip, bind, ret.
  repeat split.
  1-6: destruct (hd None (faults w)) as [e |]; cbn; [assumption || reflexivity |];
    destruct (filter _ (mkt_listings w)) as [| l0 [| l1 l]]; cbn;
    try (assumption || reflexivity);
    destruct (Listing.source_type l0 =? "asset")%string; cbn;
    destruct (hd None (tl (faults w))); cbn;
    first [assumption | reflexivity | apply Hor].
  intros listing Hfl Hsel. rewrite Hfl. cbn. rewrite Hsel. cbn.
  destruct (Listing.source_type listing =? "asset")%string; cbn;
    apply amend_rowwise.
Qed.

(** ** Payout queuing *)

(** X9.  For a seller id and a positive net amount: when the seller's
    profile is read as a single row with a non-empty payout account
    and the store answers, exactly one payout row is appended, for
    that listing and account, with the net amount, status "pending"
    and a schedule ten minutes after the clock.  When the read is
    refused, finds no single row, or the row has no payout account,
    the select is the only call made and the payouts are unchanged. *)
Theorem payout_row_targets_the_sellers_account
    (listingId sellerId : string) (net : Z) (w : World) :
  sellerId <> "" -> 0 < net ->
  let w' := exec (Sale.queuePayoutIfPossible listingId (Some sellerId) net) w in
  let found := filter (fun r => (Profile.id r =? sellerId)%string) (mkt_profiles w) in
  (forall seller account,
     faults w = [] -> found = [seller] ->
     Profile.stripe_account_id seller = Some account -> account <> "" ->
     mkt_payouts w'
     = mkt_payouts w
       ++ [ {| Payout.listing_id := listingId;
               Payout.stripe_account_id := account;
               Payout.amount_cents := net;
               Payout.scheduled_at := clock w + 600000;
               Payout.status := "pending" |} ])
  /\ (hd None (faults w) <> None
      \/ List.length found <> 1%nat
      \/ (forall seller, found = [seller] ->
            truthy (Profile.stripe_account_id seller) = false) ->
      mkt_payouts w' = mkt_payouts w
      /\ calls w' = calls w ++ [From "mkt_profiles" Select]).
Proof.
  intros Hs Hnet w' found. subst w'.
  apply String.eqb_neq in Hs.
  unfold Sale.queuePayoutIfPossible. cbn [truthy nullish]. rewrite Hs.
  destruct (Z.eqb_spec net 0); [lia |]. destruct (Z.leb_spec net 0); [lia |].
  cbn [negb orb].
  unfold exec, select_single, insert, round_trip, bind, now, ret. fold found.
  split.
  - intros seller account Hfl Hfound Hacct Hne. apply String.eqb_neq in Hne.
    rewrite Hfl. cbn. fold found. rewrite Hfound. cbn. rewrite Hacct. cbn.
    rewrite Hne. cbn. rewrite existsb_never. cbn. reflexivity.
  - intros Hno.
    destruct (hd None (faults w)) as [e |]; cbn; [split; reflexivity |].
    fold found.
    destruct Hno as [Hno | [Hno | Hno]]; [congruence | |].
    + destruct found as [| s0 [| s1 l]]; cbn in *;
        [split; reflexivity | congruence | split; reflexivity].
    + destruct found as [| s0 [| s1 l]]; cbn in *; try (split; reflexivity).
      rewrite (Hno s0 eq_refl). cbn. split; reflexivity.
Qed.

(** ** Failure events *)


Lemma amend_settled {R : Type} (p : R -> bool) (f g : R -> R) (l : list R) :
  (forall r, p r = true -> p (f r) = false) ->
  amend p g (amend p f l) = amend p f l.
Proof.
  intro H. induction l as [| r l IH]; simpl; [reflexivity |].
  rewrite IH. destruct (p r) eqn:Hp.
  - now rewrite (H r Hp).
  - now rewrite Hp.
Qed.

Lemma rowwise_in {R : Type} (P Q : R -> R -> Prop) (l l' : list R) :
  (forall a b, In a l -> P a b -> Q a b) -> Forall2 P l l' -> Forall2 Q l l'.
Proof.
  intros H F. induction F; constructor.
  - apply H; [now left | assumption].
  - apply IHF. intros a b Hin. apply H. now right.
Qed.

Arguments amend : simpl never.


(** X11.  A reversal delivered a second time, at any later clock, to a
    store that answers: the listings are exactly as the first run left
    them (a released listing no longer matches the buyer), and a
    transaction is either untouched or one that was already failed,
    marked failed again with the new time. *)
Theorem repeated_reversal_changes_nothing_more
    (stripeId : string) (listingId buyerId : option string) (t2 : Z)
    (w : World) :
  faults w = [] ->
  let w1 := exec (Sale.markTxFailed stripeId listingId buyerId) w in
  let w2 := exec (Sale.markTxFailed stripeId listingId buyerId) (with_clock t2 w1) in
  mkt_listings w2 = mkt_listings w1
  /\ Forall2
       (fun tx tx' =>
          tx' = tx
          \/ Transaction.status tx = "failed" /\ tx' = Sale.set_failed t2 tx)
       (mkt_transactions w1) (mkt_transactions w2).
Proof.
  intros Hfl w1 w2. subst w1 w2.
  unfold Sale.markTxFailed, exec, update, round_trip, bind, now, ret.
  rewrite Hfl.
  assert (Htx : forall t l,
            Forall2
              (fun tx tx' =>
                 tx' = tx
                 \/ Transaction.status tx = "failed" /\ tx' = Sale.set_failed t2 tx)
              (amend (fun tx => eq_filter (Transaction.stripe_payment_id tx)
                                  (Some stripeId)) (Sale.set_failed t) l)
              (amend (fun tx => eq_filter (Transaction.stripe_payment_id tx)
                                  (Some stripeId)) (Sale.set_failed t2)
                 (amend (fun tx => eq_filter (Transaction.stripe_payment_id tx)
                                     (Some stripeId)) (Sale.set_failed t) l))).
  { intros t l. eapply rowwise_in; [| apply amend_rowwise].
    intros a b Hin ->. cbn beta.
    destruct (eq_filter (Transaction.stripe_payment_id a) (Some stripeId)) eqn:Hp;
      [| now left].
    right. split; [| reflexivity].
    apply in_amend in Hin. destruct Hin as [[_ Hn] | (r & _ & _ & ->)];
      [congruence | reflexivity]. }
  destruct (truthy listingId); cbn.
  - split; [| apply Htx].
    apply amend_settled. intros r _. cbn.
    unfold eq_filter. destruct buyerId; apply andb_false_r.
  - split; [reflexivity | apply Htx].
Qed.

(** ** The settlement beyond the transaction *)

Lemma quiet_refl (w : World) : quiet w w.
Proof. repeat split; auto. Qed.

Lemma quiet_trans (a b c : World) : quiet a b -> quiet b c -> quiet a c.
Proof.
  intros (H1 & H2 & H3) (K1 & K2 & K3). repeat split; try congruence; auto.
Qed.

Lemma quiet_round_trip (w : World) (c : Call) :
  quiet w (with_faults (tl (faults w)) (with_calls (calls w ++ [c]) w)).
Proof.
  repeat split. cbn. intro H. now rewrite H.
Qed.



Lemma returns_ret {A : Type} (a : A) : returns (ret a).
Proof. intro w. now exists a. Qed.

Lemma returns_now : returns now.
Proof. intro w. now exists (clock w). Qed.

Lemma returns_bind {A B : Type} (m : M A) (k : A -> M B) :
  returns m -> (forall a, returns (k a)) -> returns (bind m k).
Proof.
  intros Hm Hk w. destruct (Hm w) as [a Ha]. unfold result, bind in *.
  destruct (m w) as [[a' | msg] w1]; cbn in Ha; [| discriminate].
  apply Hk.
Qed.

Lemma returns_round_trip {R : Type} (t : Table R) (op : StoreOp) :
  returns (round_trip t op).
Proof. intro w. eexists. reflexivity. Qed.

Lemma returns_update {R : Type} (t : Table R) (p : R -> bool) (f : R -> R) :
  returns (update t p f).
Proof.
  apply returns_bind; [apply returns_round_trip |].
  intros [e |] w; eexists; reflexivity.
Qed.

Lemma returns_update_returning {R : Type} (t : Table R) (p : R -> bool)
    (f : R -> R) :
  returns (update_returning t p f).
Proof.
  apply returns_bind; [apply returns_round_trip |].
  intros [e |] w; eexists; reflexivity.
Qed.

(** Sequencing for a two-world relation [Q]: a prefix that respects
    [I] and returns may be put in front, a suffix that respects [J]
    behind. *)
Lemma rel_after {A B : Type} (I Q : World -> World -> Prop)
    (m : M A) (k : A -> M B) :
  (forall a b c, I a b -> Q b c -> Q a c) ->
  stable I m -> returns m ->
  (forall a w, Q w (exec (k a) w)) ->
  forall w, Q w (exec (bind m k) w).
Proof.
  intros HIQ Hm Hr Hk w. rewrite exec_bind.
  destruct (Hr w) as [a Ha]. rewrite Ha.
  eapply HIQ; [apply Hm | apply Hk].
Qed.






Lemma transfer_trace (L B : string) (w : World) :
  exists later,
    calls (exec (Sale.transferAssetToBuyer L B) w)
    = calls w ++ From "mkt_listings" Select :: later.
Proof.
  unfold Sale.transferAssetToBuyer, exec, select_single, update, round_trip,
    bind, ret.
  destruct (hd None (faults w)); cbn; [now exists [] |].
  destruct (filter _ (mkt_listings w)) as [| l0 [| l1 l]]; cbn;
    try (now exists []).
  destruct (Listing.source_type l0 =? "asset")%string; cbn;
    destruct (hd None (tl (faults w))); cbn;
    rewrite <- app_assoc; eexists; reflexivity.
Qed.

Lemma settlement_tail_trace (L B : string) (sellerId : option string) (net : Z)
    (w1 : World) :
  exists later,
    calls (exec (t <- now ;;
                 update listings_table
                   (fun l => (Listing.id l =? L)%string) (Sale.sold_to B t) ;;
                 Sale.transferAssetToBuyer L B ;;
                 Sale.queuePayoutIfPossible L sellerId net) w1)
    = calls w1 ++ From "mkt_listings" Update :: From "mkt_listings" Select :: later.
Proof.
  rewrite exec_bind. change (result now w1) with (Normal (clock w1)).
  change (exec now w1) with w1. cbv beta iota.
  rewrite exec_bind.
  destruct (listing_update_trace
              (fun l => (Listing.id l =? L)%string) (Sale.sold_to B (clock w1)) w1)
    as [Hc [reply Hr]].
  rewrite Hr. cbv beta iota.
  set (w2 := exec (update listings_table _ _) w1) in *.
  rewrite exec_bind.
  destruct (transfer_trace L B w2) as [l1 H1].
  destruct (payout_grows L sellerId net (exec (Sale.transferAssetToBuyer L B) w2))
    as [l2 H2].
  destruct (result (Sale.transferAssetToBuyer L B) w2).
  - exists (l1 ++ l2). rewrite H2, H1, Hc, <- !app_assoc. reflexivity.
  - exists l1. rewrite H1, Hc, <- !app_assoc. reflexivity.
Qed.

(** X13.  The steps of a settlement do not wait on one another: for a
    settlement that passes its guards, whatever the store answers to
    the transaction updates (errors included), the handler goes on to
    update the listing and then to read it for the transfer.  Between
    the first transaction update and the listing update stands at most
    the fallback update. *)
Theorem store_errors_do_not_stop_the_settlement
    {stripe : StripeServer} (pi fresh : Stripe.PaymentIntent) (L B : string)
    (w : World) :
  paymentIntents_retrieve (Stripe.id pi) = Some fresh ->
  Stripe.status fresh = "succeeded" ->
  md_get "mkt_listing_id" (nullish (Stripe.metadata fresh) []) = Some L ->
  L <> "" ->
  md_get "mkt_buyer_id" (nullish (Stripe.metadata fresh) []) = Some B ->
  B <> "" ->
  exists fallback later,
    calls (exec (Sale.handlePaymentIntentSucceeded pi) w)
    = calls w
      ++ [RetrievePaymentIntent (Stripe.id pi); From "mkt_transactions" Update]
      ++ fallback
      ++ [From "mkt_listings" Update; From "mkt_listings" Select]
      ++ later
    /\ (fallback = [] \/ fallback = [From "mkt_transactions" Update]).
Proof.
  intros Hf Hs HL HL' HB HB'.
  apply String.eqb_neq in HL', HB'.
  remember (exec (Sale.handlePaymentIntentSucceeded pi) w) as w' eqn:Ew.
  unfold Sale.handlePaymentIntentSucceeded in Ew.
  rewrite exec_bind in Ew. unfold result, exec at 2 3 in Ew.
  rewrite (retrieve_found _ _ _ Hf) in Ew.
  cbv beta iota zeta in Ew. unfold fst, snd in Ew.
  rewrite Hs, HL, HB in Ew. simpl in Ew. rewrite HL', HB' in Ew. simpl in Ew.
  unfold exec, bind at 1, now at 1 in Ew.
  unfold bind at 1, update_returning, bind at 1, round_trip at 1 in Ew.
  simpl in Ew.
  pose (sellerId := md_get "mkt_seller_id" (nullish (Stripe.metadata fresh) [])).
  fold sellerId in Ew.
  assert (Hfinish : forall pre w1,
            w' = exec (t <- now ;;
                       update listings_table
                         (fun l => (Listing.id l =? L)%string) (Sale.sold_to B t) ;;
                       Sale.transferAssetToBuyer L B ;;
                       Sale.queuePayoutIfPossible L sellerId (Sale.netCents fresh)) w1 ->
            calls w1 = calls w
                       ++ [RetrievePaymentIntent (Stripe.id pi);
                           From "mkt_transactions" Update] ++ pre ->
            pre = [] \/ pre = [From "mkt_transactions" Update] ->
            exists fallback later,
              calls w'
              = calls w
                ++ [RetrievePaymentIntent (Stripe.id pi);
                    From "mkt_transactions" Update]
                ++ fallback
                ++ [From "mkt_listings" Update; From "mkt_listings" Select]
                ++ later
              /\ (fallback = [] \/ fallback = [From "mkt_transactions" Update])).
  { intros pre w1 E Hc Hpre.
    destruct (settlement_tail_trace L B sellerId (Sale.netCents fresh) w1)
      as [later Hl].
    exists pre, later. split; [| exact Hpre].
    rewrite E, Hl, Hc. rewrite <- !app_assoc. reflexivity. }
  clear Hf Hs HL HB.
  destruct (hd None (faults w)) as [e1 |]; simpl in Ew.
  - unfold ret at 1 in Ew. simpl in Ew.
    unfold bind at 1 in Ew.
    unfold bind at 1, now at 1, bind at 1, update at 1, bind at 1,
      round_trip at 1 in Ew.
    simpl in Ew.
    destruct (hd None (tl (faults w))) as [e2 |]; simpl in Ew;
      (eapply (Hfinish [From "mkt_transactions" Update]);
       [exact Ew | simpl; rewrite <- !app_assoc; reflexivity | now right]).
  - destruct (filter _ (mkt_transactions w)) as [| tx0 more]; simpl in Ew.
    + unfold bind at 1 in Ew.
      unfold bind at 1, now at 1, bind at 1, update at 1, bind at 1,
        round_trip at 1 in Ew.
      simpl in Ew.
      destruct (hd None (tl (faults w))) as [e2 |]; simpl in Ew;
        (eapply (Hfinish [From "mkt_transactions" Update]);
         [exact Ew | simpl; rewrite <- !app_assoc; reflexivity | now right]).
    + unfold bind at 1, ret at 1 in Ew.
      eapply (Hfinish []);
        [exact Ew | simpl; rewrite <- !app_assoc; reflexivity | now left].
Qed.

(** ** The two receivers keep to their own data *)

Lemma balance_in_amend (p : Profile.t -> bool) (f : Profile.t -> Profile.t)
    (l : list Profile.t) (u : string) :
  (forall r, Profile.id (f r) = Profile.id r
             /\ Profile.credits (f r) = Profile.credits r) ->
  balance_in (amend p f l) u = balance_in l u.
Proof.
  intro Hf. unfold balance_in, amend.
  induction l as [| r l IH]; [reflexivity |]. cbn [map find].
  destruct (p r).
  - destruct (Hf r) as [Hid Hc]. rewrite Hid.
    destruct (Profile.id r =? u)%string; [now rewrite Hc | exact IH].
  - destruct (Profile.id r =? u)%string; [reflexivity | exact IH].
Qed.

Lemma balance_in_new_row (l : list Profile.t) (row : Profile.t) (u : string) :
  existsb (fun b => (Profile.id row =? Profile.id b)%string) l = false ->
  Profile.credits row = None ->
  balance_in (l ++ [row]) u = balance_in l u.
Proof.
  intros Hnone Hc. unfold balance_in.
  induction l as [| r l IH]; cbn [app find].
  - destruct (Profile.id row =? u)%string; [now rewrite Hc | reflexivity].
  - cbn [existsb] in Hnone. apply orb_false_iff in Hnone. destruct Hnone as [_ Hl].
    destruct (Profile.id r =? u)%string; [reflexivity | apply IH, Hl].
Qed.

Lemma credits_untouched_refl (w : World) : credits_untouched w w.
Proof. split; auto. Qed.

Lemma credits_untouched_trans (a b c : World) :
  credits_untouched a b -> credits_untouched b c -> credits_untouched a c.
Proof.
  intros [H1 H2] [K1 K2]. split; [congruence |]. intro u. now rewrite K2.
Qed.

Lemma credits_untouched_round_trip (w : World) (c : Call) :
  credits_untouched w
    (with_faults (tl (faults w)) (with_calls (calls w ++ [c]) w)).
Proof. split; auto. Qed.

Lemma readiness_leaves_credits (acct : Stripe.Account) :
  stable credits_untouched (Sale.markSellerReadiness acct).
Proof.
  intro w. unfold Sale.markSellerReadiness, exec, upsert, update, round_trip,
    bind, ret.
  split.
  - destruct (truthy _); cbn;
      repeat (case_faults; try case_clash); reflexivity.
  - intro u. change (balance u w) with (balance_in (mkt_profiles w) u).
    match goal with
    | |- balance u ?x = _ =>
        change (balance u x) with (balance_in (mkt_profiles x) u)
    end.
    destruct (truthy _); cbn;
      repeat (case_faults; try case_clash);
      rewrite ?balance_in_amend by (intro; split; reflexivity);
      rewrite ?balance_in_new_row by (assumption || reflexivity);
      rewrite ?balance_in_amend by (intro; split; reflexivity);
      reflexivity.
Qed.

Ltac stable_credits :=
  repeat first
    [ apply readiness_leaves_credits
    | progress unfold Sale.handlePaymentIntentSucceeded,
        Sale.handlePaymentIntentFailed, Sale.handleChargeRefunded,
        Sale.markTxFailed, Sale.transferAssetToBuyer,
        Sale.queuePayoutIfPossible, retrieve, record_call
    | apply (stable_select_single _ credits_untouched_round_trip)
    | apply (stable_update _ credits_untouched_trans credits_untouched_round_trip)
    | apply (stable_update_returning _ credits_untouched_trans
               credits_untouched_round_trip)
    | apply (stable_insert _ credits_untouched_trans credits_untouched_round_trip)
    | apply (stable_ret _ credits_untouched_refl)
    | apply (stable_throw _ credits_untouched_refl)
    | apply (stable_now _ credits_untouched_refl)
    | apply (stable_bind _ credits_untouched_trans)
    | apply (stable_try_catch _ credits_untouched_trans)
    | solve [intros; split; auto]
    | match goal with
      | |- stable _ (if ?b then _ else _) => destruct b
      | |- stable _ (match ?x with _ => _ end) => destruct x
      end
    | intro ].

Lemma dispatch_leaves_credits {stripe : StripeServer} (event : Stripe.Event) :
  stable credits_untouched (Sale.dispatch event).
Proof.
  unfold Sale.dispatch. cbv zeta.
  repeat match goal with
         | |- stable _ (if ?b then _ else _) => destruct b
         end.
  all: stable_credits.
Qed.

Lemma grant_keeps_sale_tables (env : ProcessEnv) (session : Stripe.Session) :
  stable (keeps sale_tables) (Credits.grantCredits env session).
Proof.
  unfold Credits.grantCredits, Credits.admin.
  assert (Hrt : forall w c,
            keeps sale_tables w
              (with_faults (tl (faults w)) (with_calls (calls w ++ [c]) w)))
    by reflexivity.
  stable_with (keeps_refl sale_tables) (keeps_trans sale_tables) Hrt.
Qed.

(** X14.  Each receiver keeps to its own data, whatever the event and
    whatever the store does.  A request to the sale route leaves the
    credits ledger and every user's credit balance as they were (the
    readiness handler writes profile rows, but never their [credits]).
    A request to the credits route leaves listings, transactions,
    assets and payouts as they were. *)
Theorem receivers_keep_to_their_own_data
    {stripe : StripeServer} (env : ProcessEnv) (req : Request) (w : World) :
  (credits_ledger (exec (Sale.POST env req) w) = credits_ledger w
   /\ forall u, balance u (exec (Sale.POST env req) w) = balance u w)
  /\ sale_tables (exec (Credits.serve env req) w) = sale_tables w.
Proof.
  split.
  - change (credits_untouched w (exec (Sale.POST env req) w)).
    unfold exec. rewrite sale_POST_cases.
    destruct (configured _ _); [apply credits_untouched_refl |].
    destruct (snd (try_in_order _ _ _)) as [event |];
      [| split; auto].
    match goal with
    | |- credits_untouched w (snd (?m ?w1)) =>
        apply (credits_untouched_trans w w1); [split; auto |];
        change (snd (m w1)) with (exec m w1); generalize w1;
        change (stable credits_untouched m)
    end.
    apply (stable_bind _ credits_untouched_trans);
      [| intro; apply (stable_ret _ credits_untouched_refl)].
    apply (stable_try_catch _ credits_untouched_trans);
      [apply dispatch_leaves_credits
      | intro; apply (stable_ret _ credits_untouched_refl)].
  - change (keeps sale_tables w (exec (Credits.serve env req) w)).
    unfold exec. rewrite credits_serve_cases.
    destruct (configured _ _); [reflexivity |].
    destruct (snd (try_in_order _ _ _)) as [event |]; [| reflexivity].
    match goal with
    | |- keeps sale_tables w (snd (?m ?w1)) =>
        apply (keeps_trans sale_tables w w1); [reflexivity |];
        change (snd (m w1)) with (exec m w1); generalize w1;
        change (stable (keeps sale_tables) m)
    end.
    apply (stable_bind _ (keeps_trans sale_tables));
      [| intro; apply (stable_ret _ (keeps_refl sale_tables))].
    apply (stable_try_catch _ (keeps_trans sale_tables));
      [| intro; apply (stable_ret _ (keeps_refl sale_tables))].
    destruct (Stripe.type event =? "checkout.session.completed")%string;
      [apply grant_keeps_sale_tables | apply (stable_ret _ (keeps_refl sale_tables))].
Qed.

(** ** The settlement hands over the asset *)

Lemma undisturbed_refl (w : World) : undisturbed w w.
Proof. split; [apply quiet_refl | reflexivity]. Qed.

Lemma undisturbed_trans (a b c : World) :
  undisturbed a b -> undisturbed b c -> undisturbed a c.
Proof.
  intros [H1 H2] [K1 K2]. split; [eapply quiet_trans; eassumption | congruence].
Qed.

Lemma undisturbed_round_trip (w : World) (c : Call) :
  undisturbed w (with_faults (tl (faults w)) (with_calls (calls w ++ [c]) w)).
Proof. split; [apply quiet_round_trip | reflexivity]. Qed.

Lemma assets_round_trip (w : World) (c : Call) :
  keeps user_assets w
    (with_faults (tl (faults w)) (with_calls (calls w ++ [c]) w)).
Proof. reflexivity. Qed.

Lemma payout_keeps_assets (listingId : string) (sellerId : option string)
    (net : Z) :
  stable (keeps user_assets) (Sale.queuePayoutIfPossible listingId sellerId net).
Proof.
  unfold Sale.queuePayoutIfPossible.
  stable_with (keeps_refl user_assets) (keeps_trans user_assets) assets_round_trip.
Qed.

Lemma undisturbed_then_handed (L B : string) (listing : Listing.t)
    (a b c : World) :
  undisturbed a b -> asset_handed L B listing b c -> asset_handed L B listing a c.
Proof.
  intros [(H1 & _ & H3) H4] K Hfl Hsel. rewrite <- H4.
  apply K; [apply H3, Hfl | now rewrite H1].
Qed.

Lemma listing_then_transfer_hands (L B : string) (listing : Listing.t) (t : Z)
    (sellerId : option string) (net : Z) (w1 : World) :
  asset_handed L B listing w1
    (exec (update listings_table
             (fun l => (Listing.id l =? L)%string) (Sale.sold_to B t) ;;
           Sale.transferAssetToBuyer L B ;;
           Sale.queuePayoutIfPossible L sellerId net) w1).
Proof.
  intros Hfl Hsel.
  rewrite exec_bind.
  assert (Hr : result (update listings_table
                         (fun l => (Listing.id l =? L)%string) (Sale.sold_to B t)) w1
               = Normal (ok None)).
  { unfold result, update, round_trip, bind, ret. rewrite Hfl. reflexivity. }
  rewrite Hr. cbv beta iota.
  set (w2 := exec (update listings_table _ _) w1).
  assert (H2 : faults w2 = [] /\ user_assets w2 = user_assets w1
               /\ mkt_listings w2
                  = amend (fun l => (Listing.id l =? L)%string) (Sale.sold_to B t)
                      (mkt_listings w1)).
  { subst w2. unfold exec, update, round_trip, bind, ret. rewrite Hfl.
    cbn. repeat split. }
  destruct H2 as (Hf2 & Ha2 & Hl2). clearbody w2.
  rewrite exec_bind.
  assert (Ht : user_assets (exec (Sale.transferAssetToBuyer L B) w2)
               = amend (listed_asset listing) (Sale.set_owner B) (user_assets w1)).
  { unfold Sale.transferAssetToBuyer, exec, select_single, update, round_trip,
      bind, ret.
    rewrite Hf2. cbn. rewrite Hl2.
    rewrite (filter_amend (fun l => (Listing.id l =? L)%string)
               (fun l => (Listing.id l =? L)%string))
      by (intros; auto).
    rewrite Hsel. cbn. unfold listed_asset.
    destruct (Listing.source_type listing =? "asset")%string; cbn;
      rewrite Ha2; reflexivity. }
  destruct (result (Sale.transferAssetToBuyer L B) w2).
  - rewrite (payout_keeps_assets L sellerId net _), Ht. apply amend_rowwise.
  - rewrite Ht. apply amend_rowwise.
Qed.

Ltac stable_rel refl trans rt :=
  repeat first
    [ apply (stable_select_single _ rt)
    | apply (stable_update _ trans rt)
    | apply (stable_update_returning _ trans rt)
    | apply (stable_insert _ trans rt)
    | apply (stable_ret _ refl)
    | apply (stable_now _ refl)
    | apply (stable_bind _ trans)
    | solve [intros; repeat split; auto]
    | match goal with
      | |- stable _ (if ?b then _ else _) => destruct b
      | |- stable _ (match ?x with _ => _ end) => destruct x
      end
    | intro ].

(** X15.  A settlement that passes its guards, against a store that
    answers every call and holds exactly one row for the listing:
    afterwards the assets the listing stands for (the asset with the
    listing's [source_id] as id for type "asset", the uploaded images
    with that [source_id] otherwise) are owned by the buyer, and every
    other asset row is as it was. *)
Theorem settlement_hands_the_listed_asset_to_the_buyer
    {stripe : StripeServer} (pi fresh : Stripe.PaymentIntent) (L B : string)
    (listing : Listing.t) (w : World) :
  paymentIntents_retrieve (Stripe.id pi) = Some fresh ->
  Stripe.status fresh = "succeeded" ->
  md_get "mkt_listing_id" (nullish (Stripe.metadata fresh) []) = Some L ->
  L <> "" ->
  md_get "mkt_buyer_id" (nullish (Stripe.metadata fresh) []) = Some B ->
  B <> "" ->
  faults w = [] ->
  filter (fun l => (Listing.id l =? L)%string) (mkt_listings w) = [listing] ->
  Forall2
    (fun a a' => a' = if listed_asset listing a then Sale.set_owner B a else a)
    (user_assets w)
    (user_assets (exec (Sale.handlePaymentIntentSucceeded pi) w)).
Proof.
  intros Hf Hs HL HL' HB HB'.
  apply String.eqb_neq in HL', HB'.
  change (asset_handed L B listing w
            (exec (Sale.handlePaymentIntentSucceeded pi) w)).
  unfold Sale.handlePaymentIntentSucceeded.
  rewrite exec_bind. unfold result, exec at 2 3.
  rewrite (retrieve_found _ _ _ Hf).
  cbv beta iota zeta. unfold fst, snd.
  rewrite Hs, HL, HB. cbn [String.eqb Ascii.eqb Bool.eqb negb truthy nullish orb].
  rewrite HL', HB'. cbn [negb orb].
  apply (undisturbed_then_handed L B listing w
           (with_calls (calls w ++ [RetrievePaymentIntent (Stripe.id pi)]) w));
    [repeat split; auto |].
  generalize (with_calls (calls w ++ [RetrievePaymentIntent (Stripe.id pi)]) w).
  apply (rel_after undisturbed);
    [apply undisturbed_then_handed
    | stable_rel undisturbed_refl undisturbed_trans undisturbed_round_trip
    | apply returns_now |].
  intros t.
  apply (rel_after undisturbed);
    [apply undisturbed_then_handed
    | stable_rel undisturbed_refl undisturbed_trans undisturbed_round_trip
    | apply returns_update_returning |].
  intros tx1.
  apply (rel_after undisturbed);
    [apply undisturbed_then_handed
    | stable_rel undisturbed_refl undisturbed_trans undisturbed_round_trip | |].
  { destruct (Sale.no_rows (data tx1)); [| apply returns_ret].
    apply returns_bind; [apply returns_now |]. intro.
    apply returns_bind; [apply returns_update |]. intro. apply returns_ret. }
  intros _ w1. rewrite exec_bind. cbn [result now fst exec snd].
  apply listing_then_transfer_hands.
Qed.

(** ** Account readiness beyond the flags *)

(** X16.  For an account with no user id in its metadata the handler
    makes one call, the update by account id.  Whatever the store
    does, no profile row is added or removed, a row linked to another
    account (or to none) is identical afterwards, and a row of this
    account keeps its id, email, account id and credits. *)
Theorem readiness_without_user_id_touches_linked_rows_only
    (acct : Stripe.Account) (w : World) :
  truthy (match Stripe.metadata acct with
          | Some md => md_get "user_id" md
          | None => None
          end) = false ->
  let w' := exec (Sale.markSellerReadiness acct) w in
  calls w' = calls w ++ [From "mkt_profiles" Update]
  /\ Forall2
       (fun r r' =>
          (Profile.stripe_account_id r <> Some (Stripe.id acct) -> r' = r)
          /\ Profile.id r' = Profile.id r
          /\ Profile.email r' = Profile.email r
          /\ Profile.stripe_account_id r' = Profile.stripe_account_id r
          /\ Profile.credits r' = Profile.credits r)
       (mkt_profiles w) (mkt_profiles w').
Proof.
  intros Hu w'. subst w'.
  unfold Sale.markSellerReadiness. rewrite Hu.
  unfold exec, update, round_trip, bind, ret.
  destruct (hd None (faults w)); cbn; (split; [reflexivity |]).
  - apply rowwise_same. intro. repeat split.
  - eapply rowwise_weaken; [| apply amend_rowwise].
    intros r r' ->. cbn beta. unfold eq_filter.
    destruct (Profile.stripe_account_id r) as [a |] eqn:Ha;
      [| repeat split; congruence].
    destruct (String.eqb_spec a (Stripe.id acct)) as [-> | Hne]; cbn;
      repeat split; congruence.
Qed.

(** X17.  For an account tagged with a user id, against a store that
    answers: every profile row of that user is afterwards linked to
    the account and has its email cleared (the upsert writes
    [email: null] over an existing row too), while its credits are
    those of a row the user had before, or none for a new row. *)
Theorem readiness_links_the_user_and_clears_the_email
    (acct : Stripe.Account) (u : string) (w : World) :
  (match Stripe.metadata acct with
   | Some md => md_get "user_id" md
   | None => None
   end) = Some u ->
  u <> "" ->
  faults w = [] ->
  forall r', In r' (mkt_profiles (exec (Sale.markSellerReadiness acct) w)) ->
    Profile.id r' = u ->
    Profile.email r' = None
    /\ Profile.stripe_account_id r' = Some (Stripe.id acct)
    /\ (Profile.credits r' = None
        \/ exists r, In r (mkt_profiles w) /\ Profile.id r = u
                     /\ Profile.credits r' = Profile.credits r).
Proof.
  intros Hu Hne Hfl r'. apply String.eqb_neq in Hne.
  unfold Sale.markSellerReadiness. rewrite Hu. cbn [truthy nullish]. rewrite Hne.
  cbn [negb].
  unfold exec, upsert, update, round_trip, bind, ret. rewrite Hfl. cbn.
  destruct (existsb _ (mkt_profiles w)) eqn:Hex; cbn; intros Hin Hid.
  - apply in_amend in Hin. destruct Hin as [[Hin Hp] | (r1 & Hin & _ & ->)].
    + apply in_amend in Hin. destruct Hin as [[Hin Hq] | (r0 & _ & _ & ->)].
      * rewrite Hid, String.eqb_refl in Hq. discriminate.
      * cbn in Hp. rewrite String.eqb_refl in Hp. discriminate.
    + apply in_amend in Hin. destruct Hin as [[Hin Hq] | (r0 & Hin0 & Hq & ->)].
      * cbn in Hid. rewrite Hid, String.eqb_refl in Hq. discriminate.
      * cbn. repeat split. right. exists r0. repeat split; auto.
  - apply in_amend in Hin. destruct Hin as [[Hin Hp] | (r1 & Hin & _ & ->)].
    + apply in_app_or in Hin. destruct Hin as [Hin | [<- | []]].
      * exfalso.
        assert (Hc : existsb (fun b => (u =? Profile.id b)%string) (mkt_profiles w)
                     = true)
          by (apply existsb_exists; exists r'; split; [assumption |];
              rewrite Hid; apply String.eqb_refl).
        cbn in Hex. congruence.
      * cbn in Hp. rewrite String.eqb_refl in Hp. discriminate.
    + apply in_app_or in Hin. destruct Hin as [Hin | [<- | []]].
      * exfalso. cbn in Hid.
        assert (Hc : existsb (fun b => (u =? Profile.id b)%string) (mkt_profiles w)
                     = true)
          by (apply existsb_exists; exists r1; split; [assumption |];
              rewrite Hid; apply String.eqb_refl).
        cbn in Hex. congruence.
      * cbn. repeat split. now left.
Qed.

(** ** A retrieval that fails *)

(** X18.  When the provider cannot retrieve the payment, the
    settlement handler throws right after that call, with no call to
    the store; a "payment_intent.succeeded" event so handled is still
    acknowledged by the route, and the world differs from the initial
    one only by the verification attempts and the retrieval. *)
Theorem failed_retrieval_touches_nothing_and_is_acknowledged
    {stripe : StripeServer} (env : ProcessEnv) (req : Request)
    (pi : Stripe.PaymentIntent) (w : World) :
  paymentIntents_retrieve (Stripe.id pi) = None ->
  Sale.handlePaymentIntentSucceeded pi w
  = (Thrown "No such payment_intent",
     with_calls (calls w ++ [RetrievePaymentIntent (Stripe.id pi)]) w)
  /\
  let tried :=
    try_in_order (arrayBuffer req) (nullish (stripe_signature req) "")
      (configured (STRIPE_WEBHOOK_SECRET env) (STRIPE_CONNECT_WEBHOOK_SECRET env)) in
  (snd tried
   = Some {| Stripe.type := "payment_intent.succeeded"; Stripe.data_object := pi |} ->
   Sale.POST env req w
   = (Normal received_true,
      with_calls (calls w ++ fst tried ++ [RetrievePaymentIntent (Stripe.id pi)]) w)).
Proof.
  intro Hnone.
  assert (Hthrow : forall w0, Sale.handlePaymentIntentSucceeded pi w0
            = (Thrown "No such payment_intent",
               with_calls (calls w0 ++ [RetrievePaymentIntent (Stripe.id pi)]) w0)).
  { intro w0. unfold Sale.handlePaymentIntentSucceeded, bind at 1.
    now rewrite (retrieve_missing _ _ Hnone). }
  split; [apply Hthrow |].
  intros tried Hv. rewrite sale_POST_cases. fold tried.
  destruct (configured _ _) eqn:Hs; [subst tried; simpl in Hv; discriminate |].
  rewrite Hv. unfold Sale.dispatch.
  cbn [Stripe.type Stripe.data_object String.eqb Ascii.eqb Bool.eqb].
  unfold bind, try_catch. rewrite Hthrow. cbn.
  rewrite with_calls_twice, <- app_assoc. reflexivity.
Qed.

(** * The further properties on the fixtures *)


(** X2 with no store credentials at all. *)
Lemma missing_credentials_witness :
  truthy (or_else (SUPABASE_URL bare_env) (NEXT_PUBLIC_SUPABASE_URL bare_env)) = false
  /\ Credits.grantCredits bare_env credits_session empty_world
     = (Thrown "Missing SUPABASE_URL / SUPABASE_SERVICE_KEY", empty_world).
Proof.
  split; [reflexivity |].
  exact (proj1 (grant_without_store_credentials_throws_first
                  (stripe := lenient_credits_stripe) bare_env credits_session
                  (signed_request "t=1,v1=0") empty_world (or_introl eq_refl))).
Defined.


(** X4 on a store that refuses the ledger insert for lack of
    privilege. *)
Lemma refused_ledger_insert_witness :
  store_configured test_env
  /\ credits_purchase credits_session "U1" 50
  /\ hd None (faults refusing_world) = Some insufficient_privilege
  /\ code insufficient_privilege <> "23505"
  /\ mkt_profiles (exec (Credits.grantCredits test_env credits_session) refusing_world)
     = mkt_profiles refusing_world.
Proof.
  assert (Hcfg : store_configured test_env) by (split; reflexivity).
  assert (Hp : credits_purchase credits_session "U1" 50)
    by (repeat split; try reflexivity; discriminate).
  assert (He : code insufficient_privilege <> "23505") by discriminate.
  split; [exact Hcfg |]. split; [exact Hp |]. split; [reflexivity |].
  split; [exact He |].
  apply (grant_stops_on_other_ledger_error test_env credits_session "U1" 50
           insufficient_privilege refusing_world Hcfg Hp eq_refl He).
Defined.

(** X5 on a grant to [U1] in the store of the sale, where only [U3]
    has a profile. *)
Lemma grant_frame_witness :
  store_configured test_env
  /\ credits_purchase credits_session "U1" 50
  /\ exists kept added,
       mkt_profiles (exec (Credits.grantCredits test_env credits_session) sale_world)
       = kept ++ added
       /\ List.length kept = List.length (mkt_profiles sale_world).
Proof.
  assert (Hcfg : store_configured test_env) by (split; reflexivity).
  assert (Hp : credits_purchase credits_session "U1" 50)
    by (repeat split; try reflexivity; discriminate).
  split; [exact Hcfg |]. split; [exact Hp |].
  destruct (grant_writes_only_the_balance_of_its_user
              test_env credits_session "U1" 50 sale_world Hcfg Hp)
    as (kept & added & Heq & Hrows & _).
  exists kept, added. split; [exact Heq |].
  symmetry. exact (Forall2_length Hrows).
Defined.

(** X6 on a first purchase whose balance upsert is refused. *)
Lemma replay_completes_witness :
  store_configured test_env
  /\ credits_purchase credits_session "U1" 50
  /\ faults third_call_refused_world = [None; None; Some insufficient_privilege]
  /\ balance "U1"
       (exec (delivered_twice test_env credits_session) third_call_refused_world)
     = balance "U1" third_call_refused_world + 50.
Proof.
  assert (Hcfg : store_configured test_env) by (split; reflexivity).
  assert (Hp : credits_purchase credits_session "U1" 50)
    by (repeat split; try reflexivity; discriminate).
  assert (Hone : (List.length (filter (fun r => (Profile.id r =? "U1")%string)
                                (mkt_profiles third_call_refused_world)) <= 1)%nat)
    by (simpl; lia).
  split; [exact Hcfg |]. split; [exact Hp |]. split; [reflexivity |].
  apply (replay_completes_a_grant_whose_balance_write_failed
           test_env credits_session "U1" 50 insufficient_privilege
           third_call_refused_world Hcfg Hp eq_refl eq_refl Hone).
Defined.

(** X7 on a listing the store does not hold. *)
Lemma transfer_gives_up_witness :
  List.length (filter (fun l => (Listing.id l =? "L9")%string)
                 (mkt_listings sale_world)) <> 1%nat
  /\ user_assets (exec (Sale.transferAssetToBuyer "L9" "U2") sale_world)
     = user_assets sale_world.
Proof.
  assert (H : List.length (filter (fun l => (Listing.id l =? "L9")%string)
                             (mkt_listings sale_world)) <> 1%nat)
    by discriminate.
  split; [exact H |].
  unfold exec.
  rewrite (transfer_without_a_single_listing_changes_nothing
             "L9" "U2" sale_world (or_intror H)).
  reflexivity.
Defined.

(** X8 on the listing [L1] of the sale. *)
Lemma transfer_effect_witness :
  faults sale_world = []
  /\ map Asset.owner_id
       (user_assets (exec (Sale.transferAssetToBuyer "L1" "U2") sale_world))
     = ["U2"]
  /\ mkt_listings (exec (Sale.transferAssetToBuyer "L1" "U2") sale_world)
     = mkt_listings sale_world.
Proof.
  split; [reflexivity |].
  pose proof (transfer_only_reassigns_the_listed_asset "L1" "U2" sale_world) as H.
  cbv zeta in H. destruct H as (_ & Hl & _ & _ & _ & _ & Hexact).
  split; [| exact Hl].
  pose proof (Hexact _ eq_refl eq_refl) as Hrows.
  inversion Hrows as [| a a' l l' Ha Hrest]; subst.
  inversion Hrest; subst. reflexivity.
Defined.

(** X9 on the seller [U3] of the sale. *)
Lemma payout_row_witness :
  "U3" <> "" /\ 0 < 900 /\ "acct_3" <> ""
  /\ mkt_payouts (exec (Sale.queuePayoutIfPossible "L1" (Some "U3") 900) sale_world)
     = [ {| Payout.listing_id := "L1"; Payout.stripe_account_id := "acct_3";
            Payout.amount_cents := 900;
            Payout.scheduled_at := clock sale_world + 600000;
            Payout.status := "pending" |} ].
Proof.
  assert (HU : "U3" <> "") by discriminate.
  assert (Hn : 0 < 900) by reflexivity.
  assert (Ha : "acct_3" <> "") by discriminate.
  split; [exact HU |]. split; [exact Hn |]. split; [exact Ha |].
  exact (proj1 (payout_row_targets_the_sellers_account "L1" "U3" 900 sale_world
                  HU Hn) _ "acct_3" eq_refl eq_refl eq_refl Ha).
Defined.


(** X11 on the reversal of the sale, delivered again one second later. *)
Lemma repeated_reversal_witness :
  faults sale_world = []
  /\ mkt_listings
       (exec (Sale.markTxFailed "pi_9" (Some "L1") (Some "U2"))
          (with_clock (clock sale_world + 1000)
             (exec (Sale.markTxFailed "pi_9" (Some "L1") (Some "U2")) sale_world)))
     = mkt_listings
         (exec (Sale.markTxFailed "pi_9" (Some "L1") (Some "U2")) sale_world).
Proof.
  split; [reflexivity |].
  exact (proj1 (repeated_reversal_changes_nothing_more
                  "pi_9" (Some "L1") (Some "U2") (clock sale_world + 1000)
                  sale_world eq_refl)).
Defined.


(** X13 on the settlement of the sale with a store that refuses the
    first call. *)
Lemma settlement_goes_on_witness :
  @paymentIntents_retrieve sale_stripe (Stripe.id sale_intent) = Some sale_intent
  /\ Stripe.status sale_intent = "succeeded"
  /\ "L1" <> "" /\ "U2" <> ""
  /\ hd None (faults (with_faults [Some insufficient_privilege] sale_world))
     = Some insufficient_privilege
  /\ exists fallback later,
       calls (exec (Sale.handlePaymentIntentSucceeded (stripe := sale_stripe)
                      sale_intent)
                (with_faults [Some insufficient_privilege] sale_world))
       = calls (with_faults [Some insufficient_privilege] sale_world)
         ++ [RetrievePaymentIntent "pi_9"; From "mkt_transactions" Update]
         ++ fallback
         ++ [From "mkt_listings" Update; From "mkt_listings" Select]
         ++ later
       /\ (fallback = [] \/ fallback = [From "mkt_transactions" Update]).
Proof.
  assert (HL : "L1" <> "") by discriminate.
  assert (HB : "U2" <> "") by discriminate.
  split; [reflexivity |]. split; [reflexivity |]. split; [exact HL |].
  split; [exact HB |]. split; [reflexivity |].
  exact (store_errors_do_not_stop_the_settlement
           (stripe := sale_stripe) sale_intent sale_intent "L1" "U2"
           (with_faults [Some insufficient_privilege] sale_world)
           eq_refl eq_refl eq_refl HL eq_refl HB).
Defined.

(** X15 on the settlement of the sale: the asset [A1] goes to [U2]. *)
Lemma asset_handed_witness :
  @paymentIntents_retrieve sale_stripe (Stripe.id sale_intent) = Some sale_intent
  /\ Stripe.status sale_intent = "succeeded"
  /\ "L1" <> "" /\ "U2" <> ""
  /\ faults sale_world = []
  /\ map (fun a => (Asset.id a, Asset.owner_id a))
       (user_assets
          (exec (Sale.handlePaymentIntentSucceeded (stripe := sale_stripe) sale_intent)
             sale_world))
     = [("A1", "U2")].
Proof.
  assert (HL : "L1" <> "") by discriminate.
  assert (HB : "U2" <> "") by discriminate.
  split; [reflexivity |]. split; [reflexivity |]. split; [exact HL |].
  split; [exact HB |]. split; [reflexivity |].
  pose proof (settlement_hands_the_listed_asset_to_the_buyer
                (stripe := sale_stripe) sale_intent sale_intent "L1" "U2" _
                sale_world eq_refl eq_refl eq_refl HL eq_refl HB eq_refl eq_refl)
    as Hrows.
  inversion Hrows as [| a a' l l' Ha Hrest]; subst.
  inversion Hrest; subst. reflexivity.
Defined.

(** X16 on the account [acct_3] notified without metadata. *)
Lemma untagged_account_witness :
  truthy (match Stripe.metadata untagged_account with
          | Some md => md_get "user_id" md
          | None => None
          end) = false
  /\ calls (exec (Sale.markSellerReadiness untagged_account) sale_world)
     = calls sale_world ++ [From "mkt_profiles" Update].
Proof.
  split; [reflexivity |].
  exact (proj1 (readiness_without_user_id_touches_linked_rows_only
                  untagged_account sale_world eq_refl)).
Defined.

(** X17 on the account of [U3], who has a profile. *)
Lemma readiness_link_witness :
  "U3" <> ""
  /\ faults sale_world = []
  /\ forall r',
       In r' (mkt_profiles (exec (Sale.markSellerReadiness ready_account) sale_world)) ->
       Profile.id r' = "U3" ->
       Profile.email r' = None
       /\ Profile.stripe_account_id r' = Some "acct_3".
Proof.
  assert (HU : "U3" <> "") by discriminate.
  split; [exact HU |]. split; [reflexivity |].
  intros r' Hin Hid.
  destruct (readiness_links_the_user_and_clears_the_email
              ready_account "U3" sale_world eq_refl HU eq_refl r' Hin Hid)
    as (He & Ha & _).
  split; assumption.
Defined.

(** X18 on the succeeded sale that the provider cannot retrieve. *)
Lemma failed_retrieval_witness :
  @paymentIntents_retrieve forgetful_stripe (Stripe.id sale_intent) = None
  /\ Sale.POST (stripe := forgetful_stripe) test_env (signed_request "t=1,v1=0")
       sale_world
     = (Normal received_true,
        with_calls (calls sale_world
                    ++ [ConstructEvent "whsec_a"; RetrievePaymentIntent "pi_9"])
          sale_world).
Proof.
  split; [reflexivity |].
  exact (proj2 (failed_retrieval_touches_nothing_and_is_acknowledged
                  (stripe := forgetful_stripe) test_env (signed_request "t=1,v1=0")
                  sale_intent sale_world eq_refl) eq_refl).
Defined.
